(** * The blogging API of [app/main.py]: handlers, session and store

    A shallow embedding of the FastAPI application in [app/main.py]
    (signup, signin, the bearer guard and the post endpoints) together
    with the request schemas of [app/schemas.py].  The handlers are
    written in a small state-and-exception monad over a SQLAlchemy-like
    session, so that each definition can be read next to the Python
    function it embeds. *)

From Stdlib Require Import ZArith Ascii String List Bool Lia.
From Stdlib Require Import Sorting.Sorted Sorting.Permutation.
Import ListNotations.

Local Open Scope Z_scope.

(** ** Request schemas ([app/schemas.py]) *)

Module UserCreate.
Record t := mk { username : string; password : string }.
End UserCreate.

Module UserLogin.
Record t := mk { username : string; password : string }.
End UserLogin.

Module PostCreate.
Record t := mk { title : string; content : string }.
End PostCreate.

(** ** Rows of the two tables *)

Module User.
(** Modelled from the spec: the [User] row type of [app/models.py],
    which declares the table (section 3: surrogate numeric identifier,
    unique username, opaque password hash); the handlers read
    [User.id], [User.username] and [User.hashed_password]. *)
Record t := mk { id : Z; username : string; hashed_password : string }.
End User.

Module Post.
(** Modelled from the spec: the [Post] row type of [app/models.py]
    (section 3 and the [PostResponse] schema: identifier, title,
    content, creation timestamp, author reference).  A [datetime] is
    an instant on the integer time line. *)
Record t := mk
  { id : Z; title : string; content : string;
    created_at : Z; author_id : Z }.

Definition set_title (s : string) (p : t) : t :=
  mk (id p) s (content p) (created_at p) (author_id p).

Definition set_content (s : string) (p : t) : t :=
  mk (id p) (title p) s (created_at p) (author_id p).

(** Both assignments of [update_post], in its order. *)
Definition edit (new_title new_content : string) (p : t) : t :=
  set_content new_content (set_title new_title p).
End Post.

(** ** Tokens *)

(** Modelled from the spec: the payload that [verify_token] of
    [app/auth.py] hands back (section 3, Token Claim: subject,
    issued-at, expiry); the guard reads [payload["sub"]]. *)
Record Claim := mkClaim { sub : string; iat : Z; exp : Z }.

(** Modelled from the spec: the token string of [app/auth.py], seen
    through its wire format: either it does not parse, or it carries a
    payload and a signature over it (section 4.2). *)
Inductive token_string :=
| Unparsable (raw : string)
| Compact (payload : Claim) (signature : Z).

(** The database: the rows of each table in the order the engine scans
    them. *)

Record Store := mkStore { users : list User.t; posts : list Post.t }.

(** ** Exceptions and results *)

Inductive exn :=
| HTTPException (status_code : Z) (detail : string)
| AttributeError (msg : string)
| InvalidRequestError (msg : string)
| DBAPIError (msg : string)
| PasswordSizeError (msg : string)
| UnknownHashError (msg : string).

Inductive result (A : Type) :=
| Return (a : A)
| Raise (e : exn).

Arguments Return {A} a.
Arguments Raise {A} e.

(** ** The ORM session

    A session holds the database it talks to and the changes staged
    since the last commit: objects passed to [db.add], objects passed to
    [db.delete], and attribute assignments on loaded rows. *)

Inductive Op :=
| InsertUser (u : User.t)
| InsertPost (p : Post.t)
| SetTitle (pk : Z) (s : string)
| SetContent (pk : Z) (s : string)
| DeletePost (pk : Z).

Record Session := mkSession { db_store : Store; pending : list Op }.

Definition M (A : Type) : Type := Session -> result A * Session.

Definition ret {A} (a : A) : M A := fun s => (Return a, s).

Definition raise {A} (e : exn) : M A := fun s => (Raise e, s).

Definition bind {A B} (c : M A) (k : A -> M B) : M B :=
  fun s =>
    match c s with
    | (Return a, s') => k a s'
    | (Raise e, s') => (Raise e, s')
    end.

Notation "x <- c ;; k" := (bind c (fun x => k))
  (at level 61, c at next level, right associativity).
Notation "c ;; k" := (bind c (fun _ => k))
  (at level 61, right associativity).

(** Primary keys are handed out by the engine; a fresh key is one above
    the largest key in the table, starting at 1. *)

Definition next_id (ids : list Z) : Z := 1 + fold_right Z.max 0 ids.

Definition apply_op (o : Op) (st : Store) : Store :=
  match o with
  | InsertUser u => mkStore (users st ++ [u]) (posts st)
  | InsertPost p => mkStore (users st) (posts st ++ [p])
  | SetTitle pk s =>
      mkStore (users st)
        (map (fun p => if Post.id p =? pk then Post.set_title s p else p)
             (posts st))
  | SetContent pk s =>
      mkStore (users st)
        (map (fun p => if Post.id p =? pk then Post.set_content s p else p)
             (posts st))
  | DeletePost pk =>
      mkStore (users st)
        (filter (fun p => negb (Post.id p =? pk)) (posts st))
  end.

Definition flush (ops : list Op) (st : Store) : Store :=
  fold_left (fun acc o => apply_op o acc) ops st.

(** [db.query(User).filter(User.username == name).first()] *)
Definition find_user (st : Store) (name : string) : option User.t :=
  find (fun u => String.eqb (User.username u) name) (users st).

(** [db.query(Post).filter(Post.id == pk).first()] *)
Definition find_post (st : Store) (pk : Z) : option Post.t :=
  find (fun p => Post.id p =? pk) (posts st).

Definition find_user_by_id (st : Store) (pk : Z) : option User.t :=
  find (fun u => User.id u =? pk) (users st).

Definition query_user_first (name : string) : M (option User.t) :=
  fun s => (Return (find_user (db_store s) name), s).

Definition query_post_first (pk : Z) : M (option Post.t) :=
  fun s => (Return (find_post (db_store s) pk), s).

Definition stage (o : Op) : M unit :=
  fun s => (Return tt, mkSession (db_store s) (pending s ++ [o])).

Definition get_store : M Store := fun s => (Return (db_store s), s).

(** [db.add(User(username=..., hashed_password=...))]: the object is
    staged with the key the engine gives it at the flush that the
    following commit performs. *)
Definition db_add_user (name hashed : string) : M User.t :=
  st <- get_store ;;
  let u := User.mk (next_id (map User.id (users st))) name hashed in
  stage (InsertUser u) ;;
  ret u.

(** [db.add(Post(title=..., content=..., author_id=...))]: the key and
    the [created_at] default are filled in by the engine. *)
Definition db_add_post (now : Z) (title content : string) (author : Z)
  : M Post.t :=
  st <- get_store ;;
  let p := Post.mk (next_id (map Post.id (posts st))) title content now author in
  stage (InsertPost p) ;;
  ret p.

(** [db.commit()]: the staged changes reach the database. *)
Definition db_commit : M unit :=
  fun s => (Return tt, mkSession (flush (pending s) (db_store s)) []).

(** [db.refresh(obj)]: the row is read again by primary key. *)
Definition db_refresh_user (u : User.t) : M User.t :=
  st <- get_store ;;
  match find_user_by_id st (User.id u) with
  | Some u' => ret u'
  | None => raise (InvalidRequestError "Could not refresh instance")
  end.

Definition db_refresh_post (p : Post.t) : M Post.t :=
  st <- get_store ;;
  match find_post st (Post.id p) with
  | Some p' => ret p'
  | None => raise (InvalidRequestError "Could not refresh instance")
  end.

(** [db.delete(post)] *)
Definition db_delete (p : Post.t) : M unit := stage (DeletePost (Post.id p)).

(** [post.title = s] and [post.content = s] on a loaded row *)
Definition assign_title (p : Post.t) (s : string) : M unit :=
  stage (SetTitle (Post.id p) s).

Definition assign_content (p : Post.t) (s : string) : M unit :=
  stage (SetContent (Post.id p) s).

(** [db_user.id] where [db_user] is what [first()] gave: reading an
    attribute of [None] raises. *)
Definition attr_id (db_user : option User.t) : M Z :=
  match db_user with
  | Some u => ret (User.id u)
  | None => raise (AttributeError "'NoneType' object has no attribute 'id'")
  end.

(** [get_db]: a session is opened for the request and closed when the
    handler is done; what was staged and not committed is dropped. *)
Definition with_db {A} (h : M A) (st : Store) : result A * Store :=
  let (r, s) := h (mkSession st []) in (r, db_store s).

(** [ORDER BY created_at DESC] names no second sort key: among rows
    with the same [created_at] the engine is free, query by query.
    [ties p q] says whether this query puts [p] before [q] when both
    carry the same [created_at]. *)
Definition goes_before (ties : Post.t -> Post.t -> bool) (p q : Post.t)
  : bool :=
  (Post.created_at q <? Post.created_at p)
  || ((Post.created_at q =? Post.created_at p) && ties p q).

Fixpoint insert_desc (ties : Post.t -> Post.t -> bool) (p : Post.t)
  (l : list Post.t) : list Post.t :=
  match l with
  | [] => [p]
  | q :: l' =>
      if goes_before ties p q then p :: l
      else q :: insert_desc ties p l'
  end.

Definition order_by_created_at_desc (ties : Post.t -> Post.t -> bool)
  (l : list Post.t) : list Post.t :=
  fold_right (insert_desc ties) [] l.

(** ** Collaborators outside [app/main.py] *)

(** [passlib]'s [CryptContext(schemes=["argon2"])]: [hash] draws a salt,
    [verify] recomputes from the parameters stored in the hash.  Both
    can raise instead of answering: [PasswordSizeError] on a password
    above the library's size limit, [UnknownHashError] on a stored hash
    of no known scheme. *)
Record CryptContext := mkCryptContext
  { hash : string -> string -> result string;    (* salt, plaintext *)
    verify : string -> string -> result bool }.  (* plaintext, hash *)

(** A hash the hasher has produced for a password verifies against that
    password. *)
Definition CryptContext_ok (c : CryptContext) : Prop :=
  forall salt pw hashed,
    hash c salt pw = Return hashed -> verify c pw hashed = Return true.

(** [from .auth import create_access_token, verify_token]: both read the
    clock; [verify_token] gives the payload or [None]. *)
Record Auth := mkAuth
  { create_access_token : Z -> string -> token_string;   (* now, data["sub"] *)
    verify_token : Z -> token_string -> option Claim }.  (* now, token *)

(** What the SQL engine answers to a negative [LIMIT] or [OFFSET] is
    the engine's own business (some reject the statement, some read it
    as no bound). *)
Record Engine := mkEngine
  { negative_page : Z -> Z -> list Post.t -> result (list Post.t) }.

(** What a request finds around it: the clock, the hasher's salt and the
    order the engine gives to rows with equal sort keys. *)
Record Env := mkEnv
  { now : Z; salt : string; ties : Post.t -> Post.t -> bool }.

(** ** Responses *)

Inductive Body :=
| Message (message : string)
| AccessToken (access_token : token_string) (token_type : string)
| CurrentUser (user : string)
| OnePost (post : Post.t)
| Posts (posts : list Post.t).

Definition fmap {A B} (f : A -> B) (r : result A) : result B :=
  match r with
  | Return a => Return (f a)
  | Raise e => Raise e
  end.

Definition lift {A} (r : result A) : M A := fun s => (r, s).

(** A query parameter with a default value. *)
Definition param (d : Z) (q : option Z) : Z :=
  match q with
  | Some v => v
  | None => d
  end.

(** ** The handlers of [app/main.py] *)

Section Handlers.

Variable pwd_context : CryptContext.
Variable auth : Auth.
Variable engine : Engine.

(** [get_current_user]: the bearer guard.  It has no [db] dependency. *)
Definition get_current_user (now : Z) (credentials : token_string)
  : result string :=
  let token := credentials in
  let payload := verify_token auth now token in
  match payload with
  | None => Raise (HTTPException 401 "Invalid or expired token")
  | Some payload => Return (sub payload)
  end.

(** [POST /signup] *)
Definition signup (salt : string) (user : UserCreate.t) : M string :=
  existing_user <- query_user_first (UserCreate.username user) ;;
  match existing_user with
  | Some _ => raise (HTTPException 400 "Username already exists")
  | None =>
      hashed_password <-
        lift (hash pwd_context salt (UserCreate.password user)) ;;
      new_user <- db_add_user (UserCreate.username user) hashed_password ;;
      db_commit ;;
      _ <- db_refresh_user new_user ;;
      ret "User created successfully"%string
  end.

(** [POST /signin] *)
Definition signin (now : Z) (user : UserLogin.t) : M (token_string * string) :=
  db_user <- query_user_first (UserLogin.username user) ;;
  match db_user with
  | None => raise (HTTPException 401 "Invalid credentials")
  | Some db_user =>
      verified <-
        lift (verify pwd_context (UserLogin.password user)
                (User.hashed_password db_user)) ;;
      if negb verified
      then raise (HTTPException 401 "Invalid credentials")
      else
        let access_token :=
          create_access_token auth now (User.username db_user) in
        ret (access_token, "bearer"%string)
  end.

(** [GET /me] *)
Definition read_current_user (current_user : string) : string :=
  current_user.

(** [POST /posts] *)
Definition create_post (now : Z) (post : PostCreate.t)
  (current_user : string) : M Post.t :=
  db_user <- query_user_first current_user ;;
  match db_user with
  | None => raise (HTTPException 404 "User not found")
  | Some db_user =>
      new_post <- db_add_post now (PostCreate.title post)
                    (PostCreate.content post) (User.id db_user) ;;
      db_commit ;;
      db_refresh_post new_post
  end.

(** [db.query(Post).order_by(Post.created_at.desc())
       .limit(limit).offset(offset).all()] *)
Definition query_posts_page (ties : Post.t -> Post.t -> bool)
  (limit offset : Z) : M (list Post.t) :=
  st <- get_store ;;
  let rows := order_by_created_at_desc ties (posts st) in
  if (0 <=? limit) && (0 <=? offset)
  then ret (firstn (Z.to_nat limit) (skipn (Z.to_nat offset) rows))
  else lift (negative_page engine limit offset rows).

(** [GET /posts]: [limit: int = 10, offset: int = 0] *)
Definition get_posts (ties : Post.t -> Post.t -> bool)
  (limit offset : option Z) : M (list Post.t) :=
  query_posts_page ties (param 10 limit) (param 0 offset).

(** [GET /posts/{post_id}] *)
Definition get_post (post_id : Z) : M Post.t :=
  post <- query_post_first post_id ;;
  match post with
  | None => raise (HTTPException 404 "Post not found")
  | Some post => ret post
  end.

(** [PUT /posts/{post_id}] *)
Definition update_post (post_id : Z) (post_data : PostCreate.t)
  (current_user : string) : M Post.t :=
  post <- query_post_first post_id ;;
  match post with
  | None => raise (HTTPException 404 "Post not found")
  | Some post =>
      db_user <- query_user_first current_user ;;
      db_user_id <- attr_id db_user ;;
      if negb (Post.author_id post =? db_user_id)
      then raise (HTTPException 403 "Not allowed to edit this post")
      else
        assign_title post (PostCreate.title post_data) ;;
        assign_content post (PostCreate.content post_data) ;;
        db_commit ;;
        db_refresh_post post
  end.

(** [DELETE /posts/{post_id}] *)
Definition delete_post (post_id : Z) (current_user : string) : M string :=
  post <- query_post_first post_id ;;
  match post with
  | None => raise (HTTPException 404 "Post not found")
  | Some post =>
      db_user <- query_user_first current_user ;;
      db_user_id <- attr_id db_user ;;
      if negb (Post.author_id post =? db_user_id)
      then raise (HTTPException 403 "Not allowed to delete this post")
      else
        db_delete post ;;
        db_commit ;;
        ret "Post deleted successfully"%string
  end.

(** *** The routes

    A protected route resolves [Depends(get_current_user)] before its
    body runs; every route with a [db] parameter runs inside
    [get_db]. *)

Inductive Request :=
| POST_signup (user : UserCreate.t)
| POST_signin (user : UserLogin.t)
| GET_me (credentials : token_string)
| POST_posts (credentials : token_string) (post : PostCreate.t)
| GET_posts (limit offset : option Z)
| GET_post (post_id : Z)
| PUT_post (credentials : token_string) (post_id : Z)
    (post_data : PostCreate.t)
| DELETE_post (credentials : token_string) (post_id : Z).

Definition protected {A} (now : Z) (credentials : token_string)
  (h : string -> M A) : M A :=
  current_user <- lift (get_current_user now credentials) ;;
  h current_user.

Definition me (now : Z) (credentials : token_string) : result Body :=
  fmap (fun u => CurrentUser (read_current_user u))
    (get_current_user now credentials).

Definition respond {A} (f : A -> Body) (h : M A) : M Body :=
  fun s => let (r, s') := h s in (fmap f r, s').

Definition route (env : Env) (req : Request) : M Body :=
  match req with
  | POST_signup user => respond Message (signup (salt env) user)
  | POST_signin user =>
      respond (fun '(t, k) => AccessToken t k) (signin (now env) user)
  | GET_me credentials => lift (me (now env) credentials)
  | POST_posts credentials post =>
      respond OnePost
        (protected (now env) credentials (create_post (now env) post))
  | GET_posts limit offset =>
      respond Posts (get_posts (ties env) limit offset)
  | GET_post post_id => respond OnePost (get_post post_id)
  | PUT_post credentials post_id post_data =>
      respond OnePost
        (protected (now env) credentials (update_post post_id post_data))
  | DELETE_post credentials post_id =>
      respond Message
        (protected (now env) credentials (delete_post post_id))
  end.

Definition handle (env : Env) (req : Request) (st : Store)
  : result Body * Store :=
  with_db (route env req) st.

End Handlers.

(** ** The token service *)

Module TokenService.

(** Modelled from the spec: the process-wide configuration that
    [app/auth.py] reads (section 4.2: a symmetric signing key and a
    fixed token lifetime); [sign] is the keyed signature over a
    payload. *)
Record Config := mkConfig
  { key : string; lifetime : Z; sign : string -> Claim -> Z }.

(** Modelled from the spec: the two failures that [verify]
    distinguishes (section 4.2). *)
Inductive failure := malformed_or_forged | expired.

(** Modelled from the spec: [create_access_token] of [app/auth.py]
    (section 4.2, issue: a signed token embedding subject, issued-at
    and expiry, the expiry a fixed lifetime after issuance). *)
Definition issue (cfg : Config) (now : Z) (subject : string)
  : token_string :=
  let payload := mkClaim subject now (now + lifetime cfg) in
  Compact payload (sign cfg (key cfg) payload).

(** Modelled from the spec: the verification of [app/auth.py]
    (section 4.2, verify: signature integrity first, then expiry; a
    typed failure; section 8: a token verifies until its expiry
    instant). *)
Definition verify (cfg : Config) (now : Z) (token : token_string)
  : failure + Claim :=
  match token with
  | Unparsable _ => inl malformed_or_forged
  | Compact payload signature =>
      if signature =? sign cfg (key cfg) payload
      then if now <? exp payload then inr payload else inl expired
      else inl malformed_or_forged
  end.

(** Modelled from the spec: [verify_token] as [get_current_user]
    calls it, the payload or [None]. *)
Definition verify_token (cfg : Config) (now : Z) (token : token_string)
  : option Claim :=
  match verify cfg now token with
  | inr payload => Some payload
  | inl _ => None
  end.

Definition auth (cfg : Config) : Auth :=
  mkAuth (issue cfg) (verify_token cfg).

End TokenService.

(** ** Small instances, to run the handlers on examples *)

Module Samples.

(** A hasher that stores the plaintext, as the demo login of the
    top-level [main.py] does, and never raises. *)
Definition plain : CryptContext :=
  mkCryptContext (fun _ pw => Return pw)
    (fun pw h => Return (String.eqb pw h)).

(** A hasher with the two error paths of the library: a stored hash
    that does not start with the scheme's mark is not recognised, and a
    password above 4096 characters is refused. *)
Definition too_long (pw : string) : bool :=
  (4096 <? String.length pw)%nat.

Definition sized : CryptContext :=
  mkCryptContext
    (fun _ pw =>
       if too_long pw then Raise (PasswordSizeError "password too long")
       else Return (String "$"%char pw))
    (fun pw h =>
       match h with
       | String "$"%char digest =>
           if too_long pw then Raise (PasswordSizeError "password too long")
           else Return (String.eqb digest pw)
       | _ => Raise (UnknownHashError "hash could not be identified")
       end).

Fixpoint replicate (n : nat) (c : Ascii.ascii) : string :=
  match n with
  | O => EmptyString
  | S n' => String c (replicate n' c)
  end.

(** A password of 4097 characters. *)
Definition long_password : string := replicate 4097 "a"%char.

Definition config : TokenService.Config :=
  TokenService.mkConfig "k" 1800
    (fun k c => Z.of_nat (String.length k + String.length (sub c))
                + 3 * iat c + 7 * exp c).

Definition auth : Auth := TokenService.auth config.

(** An engine that rejects a negative [LIMIT] or [OFFSET]. *)
Definition engine : Engine :=
  mkEngine (fun _ _ _ => Raise (DBAPIError "LIMIT must not be negative")).

(** An engine that reads a negative [LIMIT] as no limit and a negative
    [OFFSET] as none. *)
Definition lenient : Engine :=
  mkEngine
    (fun limit offset rows =>
       let rest := skipn (Z.to_nat offset) rows in
       Return (if limit <? 0 then rest else firstn (Z.to_nat limit) rest)).

(** Two ways to order rows with equal sort keys: the row scanned first
    goes first, or the row with the larger key goes first. *)
Definition scan_order : Post.t -> Post.t -> bool := fun _ _ => true.

Definition key_order : Post.t -> Post.t -> bool :=
  fun p q => Post.id q <? Post.id p.

Definition env : Env := mkEnv 1000 "s1" scan_order.

Definition alice : User.t := User.mk 1 "alice" "pw1".
Definition bob : User.t := User.mk 2 "bob" "pw2".

Definition post1 : Post.t := Post.mk 1 "t" "c" 100 1.
Definition post2 : Post.t := Post.mk 2 "u" "d" 100 2.
Definition post3 : Post.t := Post.mk 3 "v" "e" 300 1.

Definition empty : Store := mkStore [] [].

(** Fifteen posts of alice, one every ten ticks, scanned oldest
    first. *)
Definition fifteen : Store :=
  mkStore [alice]
    (map (fun i => Post.mk i "t" "c" (10 * i) 1)
       [1; 2; 3; 4; 5; 6; 7; 8; 9; 10; 11; 12; 13; 14; 15]).
Definition blog : Store := mkStore [alice; bob] [post1; post2; post3].

(** Two users whose hashes [sized] has produced. *)
Definition members : Store :=
  mkStore [User.mk 1 "alice" "$pw1"; User.mk 2 "bob" "$pw2"] [].

End Samples.

(** ** What the statements below speak of *)

(** The table after the row with key [pk] got a new title and content. *)
Definition edited (pk : Z) (new_title new_content : string)
  (l : list Post.t) : list Post.t :=
  map (fun q => if Post.id q =? pk then Post.edit new_title new_content q
                else q) l.

(** The table without the row with key [pk]. *)
Definition without (pk : Z) (l : list Post.t) : list Post.t :=
  filter (fun q => negb (Post.id q =? pk)) l.

(** Most recent first: no row is older than a row after it. *)
Definition newest_first (l : list Post.t) : Prop :=
  StronglySorted (fun p q => Post.created_at q <= Post.created_at p) l.

(** Strictly most recent first: every row is newer than the rows after
    it. *)
Definition strictly_newest_first (l : list Post.t) : Prop :=
  StronglySorted (fun p q => Post.created_at q < Post.created_at p) l.

(** The place of a row in a listing, and the order of ties that
    follows a given listing. *)
Definition same_row (p q : Post.t) : bool :=
  (Post.id p =? Post.id q)
  && String.eqb (Post.title p) (Post.title q)
  && String.eqb (Post.content p) (Post.content q)
  && (Post.created_at p =? Post.created_at q)
  && (Post.author_id p =? Post.author_id q).

Fixpoint rank (rows : list Post.t) (x : Post.t) : nat :=
  match rows with
  | [] => O
  | y :: rows' => if same_row y x then O else S (rank rows' x)
  end.

Definition order_of (rows : list Post.t) : Post.t -> Post.t -> bool :=
  fun p q => (rank rows p <=? rank rows q)%nat.

(** An engine whose answer to a negative [LIMIT] or [OFFSET], when it
    gives one, is a run of consecutive rows of the ordered result. *)
Definition engine_slices (engine : Engine) : Prop :=
  forall limit offset rows l,
    negative_page engine limit offset rows = Return l ->
    exists n m, l = firstn n (skipn m rows).

(** A response that is one of the handlers' own HTTP errors. *)
Definition http_error {A} (r : result A) : Prop :=
  exists status_code detail, r = Raise (HTTPException status_code detail).

(** ** Serving requests one after another *)

(** The store after a list of requests, each with the clock and salt it
    finds, handled in order. *)
Fixpoint serve (pwd_context : CryptContext) (auth : Auth) (engine : Engine)
  (reqs : list (Env * Request)) (st : Store) : Store :=
  match reqs with
  | [] => st
  | (env, req) :: rest =>
      serve pwd_context auth engine rest
        (snd (handle pwd_context auth engine env req st))
  end.

(** No two user rows carry the same username. *)
Definition unique_usernames (st : Store) : Prop :=
  NoDup (map User.username (users st)).

(** Every post's [author_id] is the id of some user row. *)
Definition authors_exist (st : Store) : Prop :=
  forall p, In p (posts st) ->
  exists u, In u (users st) /\ User.id u = Post.author_id p.

(** The five shapes of the store after one request. *)
Inductive effect (st : Store) : Store -> Prop :=
| effect_none : effect st st
| effect_new_user u :
    find_user st (User.username u) = None ->
    effect st (mkStore (users st ++ [u]) (posts st))
| effect_new_post p u :
    In u (users st) -> Post.author_id p = User.id u ->
    find_post st (Post.id p) = None ->
    effect st (mkStore (users st) (posts st ++ [p]))
| effect_edit pk t c :
    effect st (mkStore (users st) (edited pk t c (posts st)))
| effect_delete pk :
    effect st (mkStore (users st) (without pk (posts st))).

(** The routes that only read. *)
Definition read_only (req : Request) : bool :=
  match req with
  | POST_signin _ | GET_me _ | GET_posts _ _ | GET_post _ => true
  | _ => false
  end.

(** The routes behind [Depends(get_current_user)], with the credentials
    they were sent. *)
Definition bearer (req : Request) : option token_string :=
  match req with
  | GET_me c | POST_posts c _ | PUT_post c _ _ | DELETE_post c _ => Some c
  | _ => None
  end.

(** ** The demo login of the top-level [main.py] *)

Module Demo.

Record LoginRequest := mkLoginRequest { username : string; password : string }.

(** A [dict] with string keys and values, and its [get]. *)
Definition dict := list (string * string).

Fixpoint get (d : dict) (k : string) : option string :=
  match d with
  | [] => None
  | (k', v) :: d' => if String.eqb k' k then Some v else get d' k
  end.

Definition fake_user_db : dict := [("sir", "1234")]%string.

(** [POST /login] *)
Definition login (data : LoginRequest) : result string :=
  let stored_password := get fake_user_db (username data) in
  match stored_password with
  | None => Raise (HTTPException 401 "User not found")
  | Some stored_password =>
      if negb (String.eqb stored_password (password data))
      then Raise (HTTPException 401 "Incorrect password")
      else Return "Login successful"%string
  end.

End Demo.

(** * Properties *)

(** ** Keys and lookups *)

Lemma fold_max_ge (ids : list Z) (x : Z) :
  In x ids -> x <= fold_right Z.max 0 ids.
Proof.
  induction ids as [|y ids IH]; simpl; [tauto|].
  intros [->|H]; [|specialize (IH H)]; lia.
Qed.

Lemma next_id_fresh (ids : list Z) (x : Z) : In x ids -> x < next_id ids.
Proof. intros H. apply fold_max_ge in H. unfold next_id. lia. Qed.

Lemma find_fresh_key {A} (key : A -> Z) (l : list A) :
  find (fun a => key a =? next_id (map key l)) l = None.
Proof.
  destruct (find _ l) as [a|] eqn:E; [|reflexivity].
  apply find_some in E. destruct E as [Hin Heq].
  apply Z.eqb_eq in Heq.
  pose proof (next_id_fresh (map key l) (key a) (in_map key l a Hin)). lia.
Qed.

Lemma find_app_last {A} (f : A -> bool) (l : list A) (x : A) :
  find f l = None -> f x = true -> find f (l ++ [x]) = Some x.
Proof.
  induction l as [|y l IH]; simpl; intros Hl Hx.
  - now rewrite Hx.
  - destruct (f y); [discriminate|auto].
Qed.

Lemma find_post_id (st : Store) (pk : Z) (p : Post.t) :
  find_post st pk = Some p -> Post.id p = pk.
Proof.
  unfold find_post. intros H. apply find_some in H.
  now apply Z.eqb_eq.
Qed.

Lemma find_user_username (st : Store) (name : string) (u : User.t) :
  find_user st name = Some u -> User.username u = name.
Proof.
  unfold find_user. intros H. apply find_some in H.
  now apply String.eqb_eq.
Qed.

(** Unfolding one handler run down to its lookups. *)
Ltac run :=
  cbv beta iota zeta delta
    [handle route respond protected me get_current_user read_current_user
     with_db lift bind ret raise fmap
     db_add_user db_add_post db_commit db_refresh_user db_refresh_post
     db_delete assign_title assign_content attr_id stage get_store
     query_user_first query_post_first flush] in *;
  simpl in *.

(** ** Signup *)

(** C5, as the sentence reads: a username that is not in the store and
    a password of 4097 characters, which the hasher refuses: signup ends
    in the hasher's exception, and no user is stored. *)
Lemma signup_refused_password :
  find_user Samples.blog "carol" = None
  /\ with_db (signup Samples.sized "s"
                (UserCreate.mk "carol" Samples.long_password))
       Samples.blog
     = (Raise (PasswordSizeError "password too long"), Samples.blog).
Proof. split; vm_compute; reflexivity. Qed.

(** C5, amended: signup with a username that is already in the user
    table fails with 400 [Username already exists] whatever the
    password, before the hasher is called, and the store is left as it
    was; with a username that is not there, the password goes to the
    credential hasher: when the hasher returns a hash, one user row with
    that username and that hash is appended and the success message is
    returned; when the hasher raises, the request ends in that exception
    and the store is left as it was. *)
Theorem signup_conflict_or_create
  (pwd_context : CryptContext) (salt : string) (user : UserCreate.t)
  (st : Store) :
  (forall u, find_user st (UserCreate.username user) = Some u ->
     with_db (signup pwd_context salt user) st
     = (Raise (HTTPException 400 "Username already exists"), st))
  /\
  (forall hashed,
     find_user st (UserCreate.username user) = None ->
     hash pwd_context salt (UserCreate.password user) = Return hashed ->
     with_db (signup pwd_context salt user) st
     = (Return "User created successfully"%string,
        mkStore
          (users st ++
             [User.mk (next_id (map User.id (users st)))
                (UserCreate.username user) hashed])
          (posts st)))
  /\
  (forall e,
     find_user st (UserCreate.username user) = None ->
     hash pwd_context salt (UserCreate.password user) = Raise e ->
     with_db (signup pwd_context salt user) st = (Raise e, st)).
Proof.
  split; [|split].
  - intros u Hu. unfold signup. run. now rewrite Hu.
  - intros hashed Hu Hh. unfold signup. run. rewrite Hu. simpl.
    rewrite Hh. simpl.
    unfold find_user_by_id. cbn [users User.id].
    rewrite find_app_last; [reflexivity| |apply Z.eqb_refl].
    apply (find_fresh_key User.id).
  - intros e Hu Hh. unfold signup. run. rewrite Hu. simpl.
    now rewrite Hh.
Qed.

Lemma signup_conflict_or_create_witness :
  with_db (signup Samples.sized "s"
             (UserCreate.mk "alice" Samples.long_password))
    Samples.members
  = (Raise (HTTPException 400 "Username already exists"), Samples.members)
  /\
  with_db (signup Samples.sized "s" (UserCreate.mk "carol" "pw3"))
    Samples.members
  = (Return "User created successfully"%string,
     mkStore (users Samples.members ++ [User.mk 3 "carol" "$pw3"])
       (posts Samples.members))
  /\
  with_db (signup Samples.sized "s"
             (UserCreate.mk "carol" Samples.long_password))
    Samples.members
  = (Raise (PasswordSizeError "password too long"), Samples.members).
Proof.
  split; [|split].
  - apply (proj1 (signup_conflict_or_create Samples.sized "s"
                    (UserCreate.mk "alice" Samples.long_password)
                    Samples.members)
             (User.mk 1 "alice" "$pw1")).
    reflexivity.
  - apply (proj1 (proj2 (signup_conflict_or_create Samples.sized "s"
                           (UserCreate.mk "carol" "pw3") Samples.members))
             "$pw3"%string); reflexivity.
  - apply (proj2 (proj2 (signup_conflict_or_create Samples.sized "s"
                           (UserCreate.mk "carol" Samples.long_password)
                           Samples.members))
             (PasswordSizeError "password too long")).
    + reflexivity.
    + vm_compute. reflexivity.
Defined.

(** ** Signin *)

Lemma signin_unknown_user
  (pwd_context : CryptContext) (auth : Auth) (t : Z) (user : UserLogin.t)
  (st : Store) :
  find_user st (UserLogin.username user) = None ->
  with_db (signin pwd_context auth t user) st
  = (Raise (HTTPException 401 "Invalid credentials"), st).
Proof. intros H. unfold signin. run. now rewrite H. Qed.

Lemma signin_hasher_answer
  (pwd_context : CryptContext) (auth : Auth) (t : Z) (user : UserLogin.t)
  (st : Store) (db_user : User.t) :
  find_user st (UserLogin.username user) = Some db_user ->
  with_db (signin pwd_context auth t user) st
  = (match verify pwd_context (UserLogin.password user)
             (User.hashed_password db_user) with
     | Return true =>
         Return (create_access_token auth t (User.username db_user),
                 "bearer"%string)
     | Return false => Raise (HTTPException 401 "Invalid credentials")
     | Raise e => Raise e
     end, st).
Proof.
  intros H. unfold signin. run. rewrite H. simpl.
  now destruct (verify pwd_context (UserLogin.password user)
                  (User.hashed_password db_user)) as [[|]|e].
Qed.

(** C2, where the code departs from it: when the hasher raises on the
    password of an existing user (a password above the size limit, or a
    stored hash it cannot identify), signin ends in that exception,
    while the same request for a username that is not in the store is
    answered 401 [Invalid credentials]: the two failing runs differ. *)
Theorem signin_hasher_error_reveals_user
  (pwd_context : CryptContext) (auth : Auth) (t t' : Z)
  (user user' : UserLogin.t) (st st' : Store) (db_user : User.t) (e : exn) :
  find_user st (UserLogin.username user) = None ->
  find_user st' (UserLogin.username user') = Some db_user ->
  verify pwd_context (UserLogin.password user')
    (User.hashed_password db_user) = Raise e ->
  e <> HTTPException 401 "Invalid credentials" ->
  with_db (signin pwd_context auth t user) st
  = (Raise (HTTPException 401 "Invalid credentials"), st)
  /\ with_db (signin pwd_context auth t' user') st' = (Raise e, st')
  /\ fst (with_db (signin pwd_context auth t user) st)
     <> fst (with_db (signin pwd_context auth t' user') st').
Proof.
  intros Hnone Hsome Hraise He.
  rewrite (signin_unknown_user _ _ _ _ _ Hnone).
  rewrite (signin_hasher_answer _ _ _ _ _ _ Hsome), Hraise.
  repeat split. simpl. congruence.
Qed.

Lemma signin_hasher_error_reveals_user_witness :
  with_db (signin Samples.sized Samples.auth 5
             (UserLogin.mk "zed" Samples.long_password)) Samples.members
  = (Raise (HTTPException 401 "Invalid credentials"), Samples.members)
  /\ with_db (signin Samples.sized Samples.auth 5
                (UserLogin.mk "alice" Samples.long_password))
       Samples.members
     = (Raise (PasswordSizeError "password too long"), Samples.members).
Proof.
  pose proof (signin_hasher_error_reveals_user Samples.sized Samples.auth
                5 5 (UserLogin.mk "zed" Samples.long_password)
                (UserLogin.mk "alice" Samples.long_password)
                Samples.members Samples.members (User.mk 1 "alice" "$pw1")
                (PasswordSizeError "password too long")) as H.
  assert (H1 : find_user Samples.members "zed" = None) by reflexivity.
  assert (H2 : find_user Samples.members "alice"
               = Some (User.mk 1 "alice" "$pw1")) by reflexivity.
  assert (H3 : verify Samples.sized Samples.long_password "$pw1"
               = Raise (PasswordSizeError "password too long"))
    by (vm_compute; reflexivity).
  assert (H4 : PasswordSizeError "password too long"
               <> HTTPException 401 "Invalid credentials") by discriminate.
  destruct (H H1 H2 H3 H4) as (Ha & Hb & _).
  split; [exact Ha|exact Hb].
Defined.

(** X19: a signin for a username that is not in the user table and a
    signin for a username that is there with a password for which the
    hasher answers [False] give the same response, 401
    [Invalid credentials], and both leave their store as it was. *)
Theorem signin_failures_indistinguishable
  (pwd_context : CryptContext) (auth : Auth) (t t' : Z)
  (user user' : UserLogin.t) (st st' : Store) (db_user : User.t) :
  find_user st (UserLogin.username user) = None ->
  find_user st' (UserLogin.username user') = Some db_user ->
  verify pwd_context (UserLogin.password user')
    (User.hashed_password db_user) = Return false ->
  with_db (signin pwd_context auth t user) st
  = (Raise (HTTPException 401 "Invalid credentials"), st)
  /\ with_db (signin pwd_context auth t' user') st'
     = (Raise (HTTPException 401 "Invalid credentials"), st')
  /\ fst (with_db (signin pwd_context auth t user) st)
     = fst (with_db (signin pwd_context auth t' user') st').
Proof.
  intros Hnone Hsome Hbad.
  rewrite (signin_unknown_user _ _ _ _ _ Hnone).
  rewrite (signin_hasher_answer _ _ _ _ _ _ Hsome), Hbad.
  repeat split.
Qed.

Lemma signin_failures_indistinguishable_witness :
  fst (with_db (signin Samples.plain Samples.auth 5
                  (UserLogin.mk "zed" "pw1")) Samples.blog)
  = fst (with_db (signin Samples.plain Samples.auth 9
                    (UserLogin.mk "alice" "wrong")) Samples.blog).
Proof.
  apply (signin_failures_indistinguishable Samples.plain Samples.auth 5 9
           (UserLogin.mk "zed" "pw1") (UserLogin.mk "alice" "wrong")
           Samples.blog Samples.blog Samples.alice);
    reflexivity.
Defined.

(** ** Updating and deleting a post *)

Lemma two_assignments (pk : Z) (t c : string) (l : list Post.t) :
  map (fun p => if Post.id p =? pk then Post.set_content c p else p)
    (map (fun p => if Post.id p =? pk then Post.set_title t p else p) l)
  = edited pk t c l.
Proof.
  unfold edited. rewrite map_map. apply map_ext. intros q.
  destruct (Post.id q =? pk) eqn:E; simpl; now rewrite E.
Qed.

Lemma find_edited (pk : Z) (t c : string) (l : list Post.t) (p : Post.t) :
  find (fun q => Post.id q =? pk) l = Some p ->
  find (fun q => Post.id q =? pk) (edited pk t c l) = Some (Post.edit t c p).
Proof.
  induction l as [|q l IH]; simpl; [discriminate|].
  destruct (Post.id q =? pk) eqn:E; simpl; rewrite E.
  - now intros [= ->].
  - exact IH.
Qed.

Lemma find_without (pk : Z) (l : list Post.t) :
  find (fun q => Post.id q =? pk) (without pk l) = None.
Proof.
  induction l as [|q l IH]; simpl; [reflexivity|].
  destruct (Post.id q =? pk) eqn:E; simpl; [|rewrite E]; exact IH.
Qed.

Lemma update_post_missing (st : Store) (post_id : Z)
  (post_data : PostCreate.t) (actor : string) :
  find_post st post_id = None ->
  with_db (update_post post_id post_data actor) st
  = (Raise (HTTPException 404 "Post not found"), st).
Proof. intros H. unfold update_post. run. now rewrite H. Qed.

Lemma delete_post_missing (st : Store) (post_id : Z) (actor : string) :
  find_post st post_id = None ->
  with_db (delete_post post_id actor) st
  = (Raise (HTTPException 404 "Post not found"), st).
Proof. intros H. unfold delete_post. run. now rewrite H. Qed.

Lemma update_post_foreign (st : Store) (post_id : Z)
  (post_data : PostCreate.t) (actor : string) (post : Post.t) (u : User.t) :
  find_post st post_id = Some post ->
  find_user st actor = Some u ->
  User.id u <> Post.author_id post ->
  with_db (update_post post_id post_data actor) st
  = (Raise (HTTPException 403 "Not allowed to edit this post"), st).
Proof.
  intros Hp Hu Hne. unfold update_post. run. rewrite Hp. simpl.
  rewrite Hu. simpl.
  destruct (Post.author_id post =? User.id u) eqn:E; [|reflexivity].
  apply Z.eqb_eq in E. congruence.
Qed.

Lemma delete_post_foreign (st : Store) (post_id : Z) (actor : string)
  (post : Post.t) (u : User.t) :
  find_post st post_id = Some post ->
  find_user st actor = Some u ->
  User.id u <> Post.author_id post ->
  with_db (delete_post post_id actor) st
  = (Raise (HTTPException 403 "Not allowed to delete this post"), st).
Proof.
  intros Hp Hu Hne. unfold delete_post. run. rewrite Hp. simpl.
  rewrite Hu. simpl.
  destruct (Post.author_id post =? User.id u) eqn:E; [|reflexivity].
  apply Z.eqb_eq in E. congruence.
Qed.

Lemma update_post_own (st : Store) (post_id : Z)
  (post_data : PostCreate.t) (actor : string) (post : Post.t) (u : User.t) :
  find_post st post_id = Some post ->
  find_user st actor = Some u ->
  User.id u = Post.author_id post ->
  with_db (update_post post_id post_data actor) st
  = (Return (Post.edit (PostCreate.title post_data)
               (PostCreate.content post_data) post),
     mkStore (users st)
       (edited post_id (PostCreate.title post_data)
          (PostCreate.content post_data) (posts st))).
Proof.
  intros Hp Hu He.
  pose proof (find_post_id _ _ _ Hp) as Hid. subst post_id.
  unfold update_post. run. rewrite Hp. simpl. rewrite Hu. simpl.
  rewrite He, Z.eqb_refl. simpl.
  unfold find_post. simpl. rewrite two_assignments.
  now rewrite (find_edited _ _ _ _ _ Hp).
Qed.

Lemma delete_post_own (st : Store) (post_id : Z) (actor : string)
  (post : Post.t) (u : User.t) :
  find_post st post_id = Some post ->
  find_user st actor = Some u ->
  User.id u = Post.author_id post ->
  with_db (delete_post post_id actor) st
  = (Return "Post deleted successfully"%string,
     mkStore (users st) (without post_id (posts st))).
Proof.
  intros Hp Hu He.
  pose proof (find_post_id _ _ _ Hp) as Hid. subst post_id.
  unfold delete_post. run. rewrite Hp. simpl. rewrite Hu. simpl.
  now rewrite He, Z.eqb_refl.
Qed.

(** C1: [update_post] and [delete_post] answer 404 when no post has the
    given id; 403 when the actor's user row has an id other than the
    post's [author_id]; and when the actor's row is the author's they
    succeed: update rewrites title and content of that row and returns
    the rewritten post, delete removes the row. *)
Theorem update_delete_ownership
  (st : Store) (post_id : Z) (post_data : PostCreate.t) (actor : string) :
  (find_post st post_id = None ->
     with_db (update_post post_id post_data actor) st
     = (Raise (HTTPException 404 "Post not found"), st)
     /\ with_db (delete_post post_id actor) st
        = (Raise (HTTPException 404 "Post not found"), st))
  /\
  (forall post u,
     find_post st post_id = Some post ->
     find_user st actor = Some u ->
     User.id u <> Post.author_id post ->
     with_db (update_post post_id post_data actor) st
     = (Raise (HTTPException 403 "Not allowed to edit this post"), st)
     /\ with_db (delete_post post_id actor) st
        = (Raise (HTTPException 403 "Not allowed to delete this post"), st))
  /\
  (forall post u,
     find_post st post_id = Some post ->
     find_user st actor = Some u ->
     User.id u = Post.author_id post ->
     let post' := Post.edit (PostCreate.title post_data)
                    (PostCreate.content post_data) post in
     let updated := mkStore (users st)
                      (edited post_id (PostCreate.title post_data)
                         (PostCreate.content post_data) (posts st)) in
     let deleted := mkStore (users st) (without post_id (posts st)) in
     with_db (update_post post_id post_data actor) st
     = (Return post', updated)
     /\ find_post updated post_id = Some post'
     /\ with_db (delete_post post_id actor) st
        = (Return "Post deleted successfully"%string, deleted)
     /\ find_post deleted post_id = None).
Proof.
  split; [|split].
  - intros H. split.
    + now apply update_post_missing.
    + now apply delete_post_missing.
  - intros post u Hp Hu Hne. split.
    + now apply update_post_foreign with post u.
    + now apply delete_post_foreign with post u.
  - intros post u Hp Hu He. cbv zeta. repeat split.
    + now apply update_post_own with u.
    + unfold find_post in *. simpl. now apply find_edited.
    + now apply delete_post_own with post u.
    + unfold find_post. simpl. apply find_without.
Qed.

Lemma update_delete_ownership_witness :
  (with_db (update_post 9 (PostCreate.mk "T" "C") "alice") Samples.blog
   = (Raise (HTTPException 404 "Post not found"), Samples.blog))
  /\ (with_db (delete_post 1 "bob") Samples.blog
      = (Raise (HTTPException 403 "Not allowed to delete this post"),
         Samples.blog))
  /\ (with_db (update_post 1 (PostCreate.mk "T" "C") "alice") Samples.blog
      = (Return (Post.mk 1 "T" "C" 100 1),
         mkStore [Samples.alice; Samples.bob]
           [Post.mk 1 "T" "C" 100 1; Samples.post2; Samples.post3])).
Proof.
  split; [|split].
  - apply (proj1 (update_delete_ownership Samples.blog 9
                    (PostCreate.mk "T" "C") "alice")).
    reflexivity.
  - apply (proj1 (proj2 (update_delete_ownership Samples.blog 1
                           (PostCreate.mk "T" "C") "bob"))
             Samples.post1 Samples.bob); [reflexivity|reflexivity|].
    simpl. lia.
  - apply (proj2 (proj2 (update_delete_ownership Samples.blog 1
                           (PostCreate.mk "T" "C") "alice"))
             Samples.post1 Samples.alice); reflexivity.
Defined.

Lemma edited_column {B} (col : Post.t -> B) (pk : Z) (t c : string)
  (l : list Post.t) :
  (forall q, col (Post.edit t c q) = col q) ->
  map col (edited pk t c l) = map col l.
Proof.
  intros Hcol. unfold edited. rewrite map_map. apply map_ext.
  intros q. destruct (Post.id q =? pk); [apply Hcol|reflexivity].
Qed.

Lemma without_edited (pk : Z) (t c : string) (l : list Post.t) :
  without pk (edited pk t c l) = without pk l.
Proof.
  induction l as [|q l IH]; simpl; [reflexivity|].
  destruct (Post.id q =? pk) eqn:E; simpl; rewrite E; simpl;
    now rewrite IH.
Qed.

(** C7: when the author updates an existing post, the update succeeds
    and the returned post has the id, creation timestamp and author of
    the stored one, with the title and content of the request; in the
    store the user table, the three columns id, [created_at] and
    [author_id] of the post table, and every row with another id are as
    before. *)
Theorem update_post_frame
  (st : Store) (post_id : Z) (post_data : PostCreate.t) (actor : string)
  (post : Post.t) (u : User.t) :
  find_post st post_id = Some post ->
  find_user st actor = Some u ->
  User.id u = Post.author_id post ->
  exists post' st',
    with_db (update_post post_id post_data actor) st = (Return post', st')
    /\ Post.id post' = Post.id post
    /\ Post.created_at post' = Post.created_at post
    /\ Post.author_id post' = Post.author_id post
    /\ Post.title post' = PostCreate.title post_data
    /\ Post.content post' = PostCreate.content post_data
    /\ users st' = users st
    /\ map Post.id (posts st') = map Post.id (posts st)
    /\ map Post.created_at (posts st') = map Post.created_at (posts st)
    /\ map Post.author_id (posts st') = map Post.author_id (posts st)
    /\ without post_id (posts st') = without post_id (posts st).
Proof.
  intros Hp Hu He. eexists. eexists. split.
  - exact (update_post_own _ _ _ _ _ _ Hp Hu He).
  - simpl. repeat split; try (now apply edited_column).
    apply without_edited.
Qed.

Lemma update_post_frame_witness :
  exists post' st',
    with_db (update_post 1 (PostCreate.mk "T" "C") "alice") Samples.blog
    = (Return post', st')
    /\ Post.id post' = 1
    /\ Post.created_at post' = 100
    /\ Post.author_id post' = 1
    /\ Post.title post' = "T"%string
    /\ Post.content post' = "C"%string
    /\ users st' = users Samples.blog
    /\ map Post.id (posts st') = [1; 2; 3]
    /\ map Post.created_at (posts st') = [100; 100; 300]
    /\ map Post.author_id (posts st') = [1; 2; 1]
    /\ without 1 (posts st') = [Samples.post2; Samples.post3].
Proof.
  apply (update_post_frame Samples.blog 1 (PostCreate.mk "T" "C") "alice"
           Samples.post1 Samples.alice); reflexivity.
Defined.

(** C8: when the post exists and no user row has the actor's username,
    [update_post] and [delete_post] read [.id] of [None]: the request
    ends in an [AttributeError], not in an HTTP error, and the store is
    as before; [create_post] in the same situation answers 404
    [User not found]. *)
Theorem missing_actor_row_unguarded
  (st : Store) (post_id : Z) (post_data : PostCreate.t) (actor : string)
  (post : Post.t) (t : Z) (new_post : PostCreate.t) :
  find_post st post_id = Some post ->
  find_user st actor = None ->
  with_db (update_post post_id post_data actor) st
  = (Raise (AttributeError "'NoneType' object has no attribute 'id'"), st)
  /\ with_db (delete_post post_id actor) st
     = (Raise (AttributeError "'NoneType' object has no attribute 'id'"), st)
  /\ ~ http_error (fst (with_db (update_post post_id post_data actor) st))
  /\ ~ http_error (fst (with_db (delete_post post_id actor) st))
  /\ with_db (create_post t new_post actor) st
     = (Raise (HTTPException 404 "User not found"), st).
Proof.
  intros Hp Hu.
  assert (H1 : with_db (update_post post_id post_data actor) st
               = (Raise (AttributeError
                           "'NoneType' object has no attribute 'id'"), st)).
  { unfold update_post. run. rewrite Hp. simpl. now rewrite Hu. }
  assert (H2 : with_db (delete_post post_id actor) st
               = (Raise (AttributeError
                           "'NoneType' object has no attribute 'id'"), st)).
  { unfold delete_post. run. rewrite Hp. simpl. now rewrite Hu. }
  repeat split; trivial.
  - rewrite H1. intros (code & detail & [=]).
  - rewrite H2. intros (code & detail & [=]).
  - unfold create_post. run. now rewrite Hu.
Qed.

Lemma missing_actor_row_unguarded_witness :
  with_db (update_post 1 (PostCreate.mk "T" "C") "zed") Samples.blog
  = (Raise (AttributeError "'NoneType' object has no attribute 'id'"),
     Samples.blog)
  /\ with_db (create_post 7 (PostCreate.mk "T" "C") "zed") Samples.blog
     = (Raise (HTTPException 404 "User not found"), Samples.blog).
Proof.
  pose proof (missing_actor_row_unguarded Samples.blog 1
                (PostCreate.mk "T" "C") "zed" Samples.post1 7
                (PostCreate.mk "T" "C") eq_refl eq_refl) as H.
  split; [apply H|apply H].
Defined.

(** ** The guard and [/me] *)

(** C9: for every token that [verify_token] accepts, [GET /me] answers
    with the token's subject whatever the store holds, in particular
    when no user row has that username, and leaves the store as it was;
    the answer of [GET /me] does not depend on the store at all. *)
Theorem me_ignores_user_store
  (pwd_context : CryptContext) (auth : Auth) (engine : Engine) (env : Env)
  (credentials : token_string) (payload : Claim) :
  verify_token auth (now env) credentials = Some payload ->
  (forall st,
     handle pwd_context auth engine env (GET_me credentials) st
     = (Return (CurrentUser (sub payload)), st))
  /\ (forall st,
        find_user st (sub payload) = None ->
        fst (handle pwd_context auth engine env (GET_me credentials) st)
        = Return (CurrentUser (sub payload)))
  /\ (forall env' tok st st',
        fst (handle pwd_context auth engine env' (GET_me tok) st)
        = fst (handle pwd_context auth engine env' (GET_me tok) st')).
Proof.
  intros Hv.
  assert (H : forall st,
             handle pwd_context auth engine env (GET_me credentials) st
             = (Return (CurrentUser (sub payload)), st)).
  { intros st. run. unfold me, get_current_user. now rewrite Hv. }
  split; [exact H|split].
  - intros st _. now rewrite H.
  - intros env' tok st st'. reflexivity.
Qed.

Lemma me_ignores_user_store_witness :
  find_user Samples.empty "zed" = None
  /\ handle Samples.plain Samples.auth Samples.engine Samples.env
       (GET_me (TokenService.issue Samples.config 900 "zed")) Samples.empty
     = (Return (CurrentUser "zed"), Samples.empty).
Proof.
  split; [reflexivity|].
  apply (proj1 (me_ignores_user_store Samples.plain Samples.auth
                  Samples.engine Samples.env
                  (TokenService.issue Samples.config 900 "zed")
                  (mkClaim "zed" 900 2700) eq_refl)).
Defined.

(** ** Failed requests *)

Ltac branch :=
  match goal with
  | |- context [find_user ?st ?n] => destruct (find_user st n) eqn:?
  | |- context [find_post ?st ?k] => destruct (find_post st k) eqn:?
  | |- context [find_user_by_id ?st ?k] =>
      destruct (find_user_by_id st k) eqn:?
  | |- context [verify_token ?a ?t ?c] => destruct (verify_token a t c) eqn:?
  | |- context [hash ?p ?x ?w] => destruct (hash p x w) eqn:?
  | |- context [verify ?p ?x ?h] => destruct (verify p x h) as [[|]|] eqn:?
  | |- context [Z.eqb ?a ?b] => destruct (Z.eqb a b) eqn:?
  | |- context [andb ?a ?b] => destruct (andb a b) eqn:?
  end; simpl.

Ltac settle :=
  solve [ reflexivity
        | intros (code & detail & E); discriminate E ].

Lemma route_error_keeps_session
  (pwd_context : CryptContext) (auth : Auth) (engine : Engine) (env : Env)
  (req : Request) (s : Session) :
  http_error (fst (route pwd_context auth engine env req s)) ->
  snd (route pwd_context auth engine env req s) = s.
Proof.
  destruct req;
    unfold route, signup, signin, me, create_post, get_posts,
      query_posts_page, get_post, update_post, delete_post,
      get_current_user;
    run; repeat (try settle; branch); settle.
Qed.

(** C10: a request that ends in an HTTP error of a handler (400, 401,
    403 or 404) has staged nothing and committed nothing: the session is
    the one the handler was given, and the store after the request is
    the store before it. *)
Theorem http_error_leaves_store
  (pwd_context : CryptContext) (auth : Auth) (engine : Engine) (env : Env)
  (req : Request) :
  (forall s,
     http_error (fst (route pwd_context auth engine env req s)) ->
     snd (route pwd_context auth engine env req s) = s)
  /\
  (forall st,
     http_error (fst (handle pwd_context auth engine env req st)) ->
     snd (handle pwd_context auth engine env req st) = st).
Proof.
  split.
  - intros s. apply route_error_keeps_session.
  - intros st. unfold handle, with_db.
    pose proof (route_error_keeps_session pwd_context auth engine env req
                  (mkSession st [])) as H.
    destruct (route pwd_context auth engine env req (mkSession st []))
      as [r s']. simpl in *.
    intros He. now rewrite (H He).
Qed.

Lemma http_error_leaves_store_witness :
  snd (handle Samples.plain Samples.auth Samples.engine Samples.env
         (DELETE_post (TokenService.issue Samples.config 900 "bob") 1)
         Samples.blog)
  = Samples.blog.
Proof.
  apply (proj2 (http_error_leaves_store Samples.plain Samples.auth
                  Samples.engine Samples.env
                  (DELETE_post (TokenService.issue Samples.config 900 "bob")
                     1))).
  exists 403, "Not allowed to delete this post"%string. reflexivity.
Defined.

(** ** The token service and the signup/signin round trip *)

(** C3: token verification is a total function into a typed result.  A
    token that does not parse, or whose signature is not the service's
    signature over its payload, is reported as malformed or forged
    whatever its expiry says; a token with the right signature is
    reported as expired from its expiry instant on and yields its
    payload before; the two failures are different values, and the
    bearer guard answers 401 to both. *)
Theorem verify_signature_then_expiry (cfg : TokenService.Config) (t : Z) :
  (forall raw,
     TokenService.verify cfg t (Unparsable raw)
     = inl TokenService.malformed_or_forged)
  /\ (forall payload signature,
        signature <> TokenService.sign cfg (TokenService.key cfg) payload ->
        TokenService.verify cfg t (Compact payload signature)
        = inl TokenService.malformed_or_forged)
  /\ (forall payload,
        exp payload <= t ->
        TokenService.verify cfg t
          (Compact payload
             (TokenService.sign cfg (TokenService.key cfg) payload))
        = inl TokenService.expired)
  /\ (forall payload,
        t < exp payload ->
        TokenService.verify cfg t
          (Compact payload
             (TokenService.sign cfg (TokenService.key cfg) payload))
        = inr payload)
  /\ TokenService.malformed_or_forged <> TokenService.expired
  /\ (forall token f,
        TokenService.verify cfg t token = inl f ->
        get_current_user (TokenService.auth cfg) t token
        = Raise (HTTPException 401 "Invalid or expired token")).
Proof.
  repeat split.
  - intros payload signature Hs. unfold TokenService.verify.
    destruct (Z.eqb_spec signature
                (TokenService.sign cfg (TokenService.key cfg) payload));
      [contradiction|reflexivity].
  - intros payload He. unfold TokenService.verify.
    rewrite Z.eqb_refl.
    destruct (Z.ltb_spec t (exp payload)); [lia|reflexivity].
  - intros payload He. unfold TokenService.verify.
    rewrite Z.eqb_refl.
    destruct (Z.ltb_spec t (exp payload)); [reflexivity|lia].
  - discriminate.
  - intros token f Hf. unfold get_current_user. simpl.
    unfold TokenService.verify_token. now rewrite Hf.
Qed.

Lemma verify_signature_then_expiry_witness :
  TokenService.verify Samples.config 5000
    (Compact (mkClaim "alice" 900 2700) 0)
  = inl TokenService.malformed_or_forged
  /\ TokenService.verify Samples.config 2700
       (TokenService.issue Samples.config 900 "alice")
     = inl TokenService.expired
  /\ TokenService.verify Samples.config 2699
       (TokenService.issue Samples.config 900 "alice")
     = inr (mkClaim "alice" 900 2700)
  /\ get_current_user Samples.auth 2700
       (TokenService.issue Samples.config 900 "alice")
     = Raise (HTTPException 401 "Invalid or expired token").
Proof.
  split; [|split; [|split]].
  - apply (proj1 (proj2 (verify_signature_then_expiry Samples.config 5000))).
    vm_compute. discriminate.
  - apply (proj1 (proj2 (proj2
             (verify_signature_then_expiry Samples.config 2700)))
             (mkClaim "alice" 900 2700)).
    simpl. lia.
  - apply (proj1 (proj2 (proj2 (proj2
             (verify_signature_then_expiry Samples.config 2699))))
             (mkClaim "alice" 900 2700)).
    simpl. lia.
  - apply (proj2 (proj2 (proj2 (proj2 (proj2
             (verify_signature_then_expiry Samples.config 2700)))))
             _ TokenService.expired).
    reflexivity.
Defined.

Lemma plain_ok : CryptContext_ok Samples.plain.
Proof.
  intros s pw hashed [= <-]. simpl. now rewrite String.eqb_refl.
Qed.

(** C4: for a username that is not yet in the user table and any
    password the hasher takes (it returns a hash for it), signup
    succeeds, a signin with the same pair on the resulting store
    succeeds and leaves that store as it is, and the access token it
    returns verifies, at every instant before its expiry, to a claim
    whose subject is that username. *)
Theorem signup_then_signin
  (pwd_context : CryptContext) (cfg : TokenService.Config) (engine : Engine)
  (env env' : Env) (username password hashed : string) (st : Store)
  (t : Z) :
  CryptContext_ok pwd_context ->
  hash pwd_context (salt env) password = Return hashed ->
  find_user st username = None ->
  t < now env' + TokenService.lifetime cfg ->
  exists st' token payload,
    handle pwd_context (TokenService.auth cfg) engine env
      (POST_signup (UserCreate.mk username password)) st
    = (Return (Message "User created successfully"), st')
    /\ handle pwd_context (TokenService.auth cfg) engine env'
         (POST_signin (UserLogin.mk username password)) st'
       = (Return (AccessToken token "bearer"), st')
    /\ TokenService.verify cfg t token = inr payload
    /\ sub payload = username.
Proof.
  intros Hok Hhash Hnew Ht.
  set (row := User.mk (next_id (map User.id (users st))) username hashed).
  exists (mkStore (users st ++ [row]) (posts st)).
  exists (TokenService.issue cfg (now env') username).
  exists (mkClaim username (now env')
            (now env' + TokenService.lifetime cfg)).
  assert (Hrow : find_user (mkStore (users st ++ [row]) (posts st)) username
                 = Some row).
  { unfold find_user in *. simpl. apply find_app_last; [exact Hnew|].
    apply String.eqb_refl. }
  repeat split.
  - unfold handle, route, signup. run. rewrite Hnew. simpl.
    rewrite Hhash. simpl.
    unfold find_user_by_id. simpl.
    rewrite find_app_last; [reflexivity| |apply Z.eqb_refl].
    apply (find_fresh_key User.id).
  - unfold handle, route, signin. run. rewrite Hrow. simpl.
    now rewrite (Hok _ _ _ Hhash).
  - unfold TokenService.verify, TokenService.issue. simpl.
    rewrite Z.eqb_refl.
    destruct (Z.ltb_spec t (now env' + TokenService.lifetime cfg));
      [reflexivity|lia].
Qed.

Lemma signup_then_signin_witness :
  exists st' token payload,
    handle Samples.plain Samples.auth Samples.engine Samples.env
      (POST_signup (UserCreate.mk "carol" "pw3")) Samples.blog
    = (Return (Message "User created successfully"), st')
    /\ handle Samples.plain Samples.auth Samples.engine
         (mkEnv 2000 "s2" Samples.scan_order)
         (POST_signin (UserLogin.mk "carol" "pw3")) st'
       = (Return (AccessToken token "bearer"), st')
    /\ TokenService.verify Samples.config 3799 token = inr payload
    /\ sub payload = "carol"%string.
Proof.
  apply (signup_then_signin Samples.plain Samples.config Samples.engine
           Samples.env (mkEnv 2000 "s2" Samples.scan_order) "carol" "pw3"
           "pw3" Samples.blog 3799).
  - exact plain_ok.
  - reflexivity.
  - reflexivity.
  - simpl. lia.
Defined.

(** ** Listing posts *)

Section Slices.

Context {A : Type} (R : A -> A -> Prop).

Lemma StronglySorted_app_inv (l1 l2 : list A) :
  StronglySorted R (l1 ++ l2) ->
  StronglySorted R l1 /\ StronglySorted R l2
  /\ (forall x y, In x l1 -> In y l2 -> R x y).
Proof.
  induction l1 as [|a l1 IH]; simpl; intros H.
  - repeat split; [constructor|exact H|contradiction].
  - apply StronglySorted_inv in H. destruct H as [Hs Hf].
    destruct (IH Hs) as (H1 & H2 & H12).
    apply Forall_app in Hf. destruct Hf as [Hf1 Hf2].
    repeat split; [now constructor|exact H2|].
    intros x y [<-|Hx] Hy; [|now apply H12].
    rewrite Forall_forall in Hf2. now apply Hf2.
Qed.

Lemma StronglySorted_page (n m : nat) (l : list A) :
  StronglySorted R l -> StronglySorted R (firstn n (skipn m l)).
Proof.
  intros H. rewrite <- (firstn_skipn m l) in H.
  apply StronglySorted_app_inv in H. destruct H as (_ & H & _).
  rewrite <- (firstn_skipn n (skipn m l)) in H.
  now apply StronglySorted_app_inv in H.
Qed.

End Slices.

Lemma insert_desc_perm (ties : Post.t -> Post.t -> bool) (p : Post.t)
  (l : list Post.t) :
  Permutation (insert_desc ties p l) (p :: l).
Proof.
  induction l as [|q l IH]; simpl; [reflexivity|].
  destruct (goes_before ties p q); [reflexivity|].
  rewrite IH. apply perm_swap.
Qed.

Lemma order_by_perm (ties : Post.t -> Post.t -> bool) (l : list Post.t) :
  Permutation (order_by_created_at_desc ties l) l.
Proof.
  induction l as [|p l IH]; simpl; [constructor|].
  unfold order_by_created_at_desc in *. simpl.
  rewrite insert_desc_perm. now constructor.
Qed.

Lemma goes_before_newer (ties : Post.t -> Post.t -> bool) (p q : Post.t) :
  (goes_before ties p q = true -> Post.created_at q <= Post.created_at p)
  /\ (goes_before ties p q = false -> Post.created_at p <= Post.created_at q).
Proof.
  unfold goes_before.
  destruct (Z.ltb_spec (Post.created_at q) (Post.created_at p));
    destruct (Z.eqb_spec (Post.created_at q) (Post.created_at p));
    simpl; split; intros; try discriminate; lia.
Qed.

Lemma insert_desc_sorted (ties : Post.t -> Post.t -> bool) (p : Post.t)
  (l : list Post.t) :
  newest_first l -> newest_first (insert_desc ties p l).
Proof.
  unfold newest_first. induction l as [|q l IH]; simpl; intros H.
  - repeat constructor.
  - apply StronglySorted_inv in H. destruct H as [Hs Hf].
    destruct (goes_before ties p q) eqn:E;
      apply (goes_before_newer ties p q) in E.
    + constructor; [now constructor|].
      constructor; [assumption|].
      rewrite Forall_forall in *. intros x Hx. specialize (Hf x Hx). lia.
    + constructor; [now apply IH|].
      rewrite Forall_forall in *. intros x Hx.
      apply (Permutation_in _ (insert_desc_perm ties p l)) in Hx.
      destruct Hx as [<-|Hx]; [lia|now apply Hf].
Qed.

Lemma order_by_sorted (ties : Post.t -> Post.t -> bool) (l : list Post.t) :
  newest_first (order_by_created_at_desc ties l).
Proof.
  induction l as [|p l IH]; [constructor|].
  now apply insert_desc_sorted.
Qed.

Lemma newest_first_strict (l : list Post.t) :
  newest_first l -> NoDup (map Post.created_at l) ->
  strictly_newest_first l.
Proof.
  unfold newest_first, strictly_newest_first.
  induction l as [|p l IH]; simpl; intros Hs Hn; [constructor|].
  apply StronglySorted_inv in Hs. destruct Hs as [Hs Hf].
  apply NoDup_cons_iff in Hn. destruct Hn as [Hp Hn].
  constructor; [now apply IH|].
  rewrite Forall_forall in *. intros x Hx.
  specialize (Hf x Hx).
  assert (Post.created_at x <> Post.created_at p).
  { intros E. apply Hp. rewrite <- E. now apply in_map. }
  lia.
Qed.

(** With no two equal creation times, the order of ties has nothing to
    decide. *)
Lemma insert_desc_no_tie (ties ties' : Post.t -> Post.t -> bool)
  (p : Post.t) (l : list Post.t) :
  ~ In (Post.created_at p) (map Post.created_at l) ->
  insert_desc ties p l = insert_desc ties' p l.
Proof.
  induction l as [|q l IH]; simpl; intros H; [reflexivity|].
  assert (E : goes_before ties p q = goes_before ties' p q).
  { unfold goes_before.
    destruct (Z.eqb_spec (Post.created_at q) (Post.created_at p)) as [E|_];
      [|reflexivity].
    exfalso. apply H. now left. }
  rewrite E, IH; [reflexivity|tauto].
Qed.

Lemma order_by_no_tie (ties ties' : Post.t -> Post.t -> bool)
  (l : list Post.t) :
  NoDup (map Post.created_at l) ->
  order_by_created_at_desc ties l = order_by_created_at_desc ties' l.
Proof.
  unfold order_by_created_at_desc.
  induction l as [|p l IH]; simpl; intros H; [reflexivity|].
  apply NoDup_cons_iff in H. destruct H as [Hp Hn].
  rewrite (IH Hn). apply insert_desc_no_tie.
  intros Hin. apply Hp.
  apply (Permutation_in (l := map Post.created_at
                                (fold_right (insert_desc ties') [] l)));
    [|exact Hin].
  apply Permutation_map. apply (order_by_perm ties' l).
Qed.

(** *** Every legal listing is the listing of some order of ties *)

Lemma same_row_eq (p q : Post.t) : same_row p q = true <-> p = q.
Proof.
  unfold same_row. split.
  - intros H. repeat (apply andb_prop in H; destruct H as [H ?]).
    destruct p, q; simpl in *.
    repeat match goal with
           | E : (_ =? _) = true |- _ => apply Z.eqb_eq in E
           | E : (_ =? _)%string = true |- _ => apply String.eqb_eq in E
           end.
    congruence.
  - intros <-. now rewrite !Z.eqb_refl, !String.eqb_refl.
Qed.

Lemma rank_head (a x : Post.t) (rows : list Post.t) :
  rank (a :: rows) a = O
  /\ (x <> a -> rank (a :: rows) x = S (rank rows x)).
Proof.
  simpl. split.
  - now rewrite (proj2 (same_row_eq a a) eq_refl).
  - intros H. destruct (same_row a x) eqn:E; [|reflexivity].
    apply same_row_eq in E. congruence.
Qed.

Lemma StronglySorted_within {A} (R R' : A -> A -> Prop) (l : list A) :
  (forall x y, In x l -> In y l -> R x y -> R' x y) ->
  StronglySorted R l -> StronglySorted R' l.
Proof.
  induction l as [|a l IH]; intros H Hs; [constructor|].
  apply StronglySorted_inv in Hs. destruct Hs as [Hs Hf].
  constructor.
  - apply IH; [|exact Hs]. intros x y Hx Hy. apply H; now right.
  - rewrite Forall_forall in *. intros x Hx.
    apply H; [now left|now right|now apply Hf].
Qed.

Lemma StronglySorted_both {A} (R R' : A -> A -> Prop) (l : list A) :
  StronglySorted R l -> StronglySorted R' l ->
  StronglySorted (fun x y => R x y /\ R' x y) l.
Proof.
  induction l as [|a l IH]; intros H H'; [constructor|].
  apply StronglySorted_inv in H. apply StronglySorted_inv in H'.
  destruct H as [Hs Hf], H' as [Hs' Hf'].
  constructor; [now apply IH|].
  rewrite Forall_forall in *. intros x Hx. split; auto.
Qed.

Lemma StronglySorted_pairs {A} (R : A -> A -> Prop) (l : list A) (x y : A) :
  StronglySorted R l -> In x l -> In y l -> x = y \/ R x y \/ R y x.
Proof.
  induction l as [|a l IH]; intros Hs Hx Hy; [contradiction|].
  apply StronglySorted_inv in Hs. destruct Hs as [Hs Hf].
  rewrite Forall_forall in Hf.
  destruct Hx as [<-|Hx], Hy as [<-|Hy]; auto.
Qed.

Lemma rank_sorted (rows : list Post.t) :
  NoDup rows ->
  StronglySorted (fun x y => (rank rows x < rank rows y)%nat) rows.
Proof.
  induction rows as [|a rows IH]; intros Hn; [constructor|].
  apply NoDup_cons_iff in Hn. destruct Hn as [Ha Hn].
  assert (Hne : forall x, In x rows -> x <> a) by (intros x Hx ->; auto).
  constructor.
  - apply StronglySorted_within
      with (R := fun x y => (rank rows x < rank rows y)%nat);
      [|now apply IH].
    intros x y Hx Hy Hlt.
    rewrite (proj2 (rank_head a x rows) (Hne x Hx)),
      (proj2 (rank_head a y rows) (Hne y Hy)). lia.
  - rewrite Forall_forall. intros x Hx.
    rewrite (proj1 (rank_head a x rows)),
      (proj2 (rank_head a x rows) (Hne x Hx)). lia.
Qed.

Lemma goes_before_rank (rows : list Post.t) (x y : Post.t) :
  NoDup rows -> newest_first rows -> In x rows -> In y rows ->
  goes_before (order_of rows) x y = (rank rows x <=? rank rows y)%nat.
Proof.
  intros Hn Hs Hx Hy.
  pose proof (StronglySorted_both _ _ _ (rank_sorted rows Hn) Hs) as Hb.
  unfold goes_before, order_of.
  destruct (StronglySorted_pairs _ _ x y Hb Hx Hy)
    as [<-|[[Hr Ht]|[Hr Ht]]].
  - rewrite Z.ltb_irrefl, Z.eqb_refl, Nat.leb_refl. reflexivity.
  - destruct (Nat.leb_spec (rank rows x) (rank rows y)); [|lia].
    destruct (Z.ltb_spec (Post.created_at y) (Post.created_at x));
      [reflexivity|].
    destruct (Z.eqb_spec (Post.created_at y) (Post.created_at x));
      [reflexivity|lia].
  - destruct (Nat.leb_spec (rank rows x) (rank rows y)); [lia|].
    destruct (Z.ltb_spec (Post.created_at y) (Post.created_at x)); [lia|].
    now rewrite andb_false_r.
Qed.

Lemma insert_desc_ranked (rows : list Post.t) (p : Post.t)
  (l : list Post.t) :
  NoDup rows -> newest_first rows ->
  In p rows -> (forall q, In q l -> In q rows) ->
  StronglySorted (fun x y => (rank rows x <= rank rows y)%nat) l ->
  StronglySorted (fun x y => (rank rows x <= rank rows y)%nat)
    (insert_desc (order_of rows) p l).
Proof.
  intros Hn Hs Hp. induction l as [|q l IH]; simpl; intros Hl H.
  - repeat constructor.
  - apply StronglySorted_inv in H. destruct H as [Hsl Hf].
    rewrite (goes_before_rank rows p q Hn Hs Hp (Hl q (or_introl eq_refl))).
    destruct (Nat.leb_spec (rank rows p) (rank rows q)).
    + constructor; [now constructor|].
      constructor; [assumption|].
      rewrite Forall_forall in *. intros x Hx. specialize (Hf x Hx). lia.
    + constructor; [apply IH; auto|].
      rewrite Forall_forall in *. intros x Hx.
      apply (Permutation_in _ (insert_desc_perm _ p l)) in Hx.
      destruct Hx as [<-|Hx]; [lia|now apply Hf].
Qed.

Lemma sorted_perm_unique {A} (key : A -> nat) (l rows : list A) :
  StronglySorted (fun x y => (key x <= key y)%nat) l ->
  StronglySorted (fun x y => (key x < key y)%nat) rows ->
  Permutation l rows -> l = rows.
Proof.
  revert rows. induction l as [|a l IH]; intros rows Hl Hr Hp.
  - apply Permutation_nil in Hp. now subst.
  - destruct rows as [|b rows].
    + symmetry in Hp. apply Permutation_nil in Hp. discriminate.
    + apply StronglySorted_inv in Hl. destruct Hl as [Hl Hfl].
      apply StronglySorted_inv in Hr. destruct Hr as [Hr Hfr].
      rewrite Forall_forall in Hfl, Hfr.
      assert (E : a = b).
      { assert (Ha : In a (b :: rows))
          by (apply (Permutation_in _ Hp); now left).
        assert (Hb : In b (a :: l))
          by (apply (Permutation_in _ (Permutation_sym Hp)); now left).
        destruct Ha as [Ha|Ha]; [now subst|].
        destruct Hb as [Hb|Hb]; [now subst|].
        specialize (Hfl b Hb). specialize (Hfr a Ha). lia. }
      subst b. f_equal. apply IH; trivial.
      now apply Permutation_cons_inv in Hp.
Qed.

(** For a table [l] of distinct rows and any arrangement [rows] of it
    with no post before a newer one, the order of ties read off [rows]
    makes the model's ordering return [rows]. *)
Lemma every_listing_has_its_ties (l rows : list Post.t) :
  NoDup l -> Permutation rows l -> newest_first rows ->
  order_by_created_at_desc (order_of rows) l = rows.
Proof.
  intros Hn Hp Hs.
  assert (Hnr : NoDup rows)
    by (apply Permutation_NoDup with l; [now symmetry|exact Hn]).
  apply sorted_perm_unique with (key := rank rows).
  - assert (H : forall l', (forall q, In q l' -> In q rows) ->
                StronglySorted (fun x y => (rank rows x <= rank rows y)%nat)
                  (order_by_created_at_desc (order_of rows) l')).
    { induction l' as [|p l' IH]; intros Hin; [constructor|].
      unfold order_by_created_at_desc in *. simpl.
      apply insert_desc_ranked; trivial.
      - apply Hin. now left.
      - intros q Hq.
        apply (Permutation_in _ (order_by_perm (order_of rows) l')) in Hq.
        apply Hin. now right.
      - apply IH. intros q Hq. apply Hin. now right. }
    apply H. intros q Hq.
    now apply (Permutation_in _ (Permutation_sym Hp)).
  - now apply rank_sorted.
  - rewrite order_by_perm. now symmetry.
Qed.

(** The answer of one listing query. *)
Lemma get_posts_result (engine : Engine) (ties : Post.t -> Post.t -> bool)
  (limit offset : option Z) (st : Store) :
  with_db (get_posts engine ties limit offset) st
  = (if (0 <=? param 10 limit) && (0 <=? param 0 offset)
     then Return (firstn (Z.to_nat (param 10 limit))
                    (skipn (Z.to_nat (param 0 offset))
                       (order_by_created_at_desc ties (posts st))))
     else negative_page engine (param 10 limit) (param 0 offset)
            (order_by_created_at_desc ties (posts st)),
     st).
Proof.
  unfold get_posts, query_posts_page. run.
  now destruct ((0 <=? param 10 limit) && (0 <=? param 0 offset)).
Qed.

Lemma get_posts_run (engine : Engine) (ties : Post.t -> Post.t -> bool)
  (limit offset : option Z) (st : Store) :
  0 <= param 10 limit -> 0 <= param 0 offset ->
  with_db (get_posts engine ties limit offset) st
  = (Return (firstn (Z.to_nat (param 10 limit))
               (skipn (Z.to_nat (param 0 offset))
                  (order_by_created_at_desc ties (posts st)))), st).
Proof.
  intros Hl Ho. rewrite get_posts_result.
  destruct (Z.leb_spec 0 (param 10 limit)); [|lia].
  destruct (Z.leb_spec 0 (param 0 offset)); [|lia].
  reflexivity.
Qed.

Lemma in_page {A} (n : nat) (l : list A) (x : A) :
  In x (firstn n l) -> In x l.
Proof.
  intros H. rewrite <- (firstn_skipn n l). apply in_or_app. now left.
Qed.

Lemma in_rest {A} (m : nat) (l : list A) (x : A) :
  In x (skipn m l) -> In x l.
Proof.
  intros H. rewrite <- (firstn_skipn m l). apply in_or_app. now right.
Qed.

Lemma lenient_slices : engine_slices Samples.lenient.
Proof.
  intros limit offset rows l. simpl. intros [= <-].
  destruct (limit <? 0).
  - exists (length rows), (Z.to_nat offset).
    rewrite firstn_all2; [reflexivity|].
    rewrite length_skipn. lia.
  - now exists (Z.to_nat limit), (Z.to_nat offset).
Qed.

(** C6, as the sentence reads: two posts created at the same instant
    are both listed, so the listing is not strictly descending, in
    whichever order the engine returns the two. *)
Lemma get_posts_ties_not_strict :
  (exists l,
     with_db (get_posts Samples.engine Samples.scan_order None None)
       Samples.blog
     = (Return l, Samples.blog)
     /\ ~ strictly_newest_first l)
  /\ (exists l,
        with_db (get_posts Samples.engine Samples.key_order None None)
          Samples.blog
        = (Return l, Samples.blog)
        /\ ~ strictly_newest_first l).
Proof.
  split; (eexists; split; [reflexivity|]);
    intros H; apply StronglySorted_inv in H; destruct H as [H _];
    apply StronglySorted_inv in H; destruct H as [_ H];
    apply Forall_inv in H; simpl in H; lia.
Qed.

(** C6, amended: for every store state and every limit/offset (10 and 0
    when omitted), what [get_posts] returns is a run of the posts
    ordered by creation time descending, most recent first: no listed
    post is older than one listed after it, posts with equal creation
    time come in the order the engine gives them in that query, and the
    order is strict when no two posts share a creation time.  For a
    non-negative limit and offset the run skips the first [offset] posts
    of that order and keeps at most [limit], so that with 15 posts,
    limit 10 and offset 10 give the last 5 of the order, none of them
    newer than a skipped one; a negative limit or offset goes to the
    engine, and for an engine that answers such a query, when it does,
    with a run of the ordered rows, the answer is again a run of that
    order. *)
Theorem get_posts_page (engine : Engine) (ties : Post.t -> Post.t -> bool)
  (st : Store) (limit offset : option Z) :
  let rows := order_by_created_at_desc ties (posts st) in
  let n := Z.to_nat (param 10 limit) in
  let m := Z.to_nat (param 0 offset) in
  Permutation rows (posts st)
  /\ newest_first rows
  /\ ((0 <= param 10 limit /\ 0 <= param 0 offset) \/ engine_slices engine ->
      forall l st',
        with_db (get_posts engine ties limit offset) st = (Return l, st') ->
        st' = st
        /\ (exists n' m', l = firstn n' (skipn m' rows))
        /\ (forall p, In p l -> In p (posts st))
        /\ newest_first l
        /\ (NoDup (map Post.created_at (posts st)) ->
            strictly_newest_first l))
  /\ (0 <= param 10 limit -> 0 <= param 0 offset ->
      with_db (get_posts engine ties limit offset) st
      = (Return (firstn n (skipn m rows)), st)
      /\ (forall p q, In p (firstn m rows) -> In q (firstn n (skipn m rows)) ->
            Post.created_at q <= Post.created_at p)
      /\ (forall p q, In p (firstn n (skipn m rows)) ->
            In q (skipn n (skipn m rows)) ->
            Post.created_at q <= Post.created_at p))
  /\ with_db (get_posts engine ties None None) st
     = with_db (get_posts engine ties (Some 10) (Some 0)) st
  /\ (length (posts st) = 15%nat ->
      with_db (get_posts engine ties (Some 10) (Some 10)) st
      = (Return (skipn 10 rows), st)
      /\ length (skipn 10 rows) = 5%nat
      /\ (forall p q, In p (firstn 10 rows) -> In q (skipn 10 rows) ->
            Post.created_at q <= Post.created_at p))
  /\ (NoDup (map Post.created_at (posts st)) ->
      forall ties', order_by_created_at_desc ties' (posts st) = rows).
Proof.
  intros rows n m.
  pose proof (order_by_sorted ties (posts st)) as Hs. fold rows in Hs.
  pose proof (order_by_perm ties (posts st)) as Hp. fold rows in Hp.
  assert (Hcut : forall k, forall p q,
             In p (firstn k rows) -> In q (skipn k rows) ->
             Post.created_at q <= Post.created_at p).
  { intros k p q Hin Hq. unfold newest_first in Hs.
    rewrite <- (firstn_skipn k rows) in Hs.
    apply StronglySorted_app_inv in Hs. destruct Hs as (_ & _ & H).
    now apply H. }
  split; [exact Hp|]. split; [exact Hs|].
  split; [|split; [|split; [|split]]].
  - intros Hcase l st' Hrun.
    rewrite get_posts_result in Hrun. fold rows in Hrun.
    assert (Hl : st' = st /\ exists n' m', l = firstn n' (skipn m' rows)).
    { destruct ((0 <=? param 10 limit) && (0 <=? param 0 offset)) eqn:E.
      - injection Hrun as <- <-. split; [reflexivity|]. now exists n, m.
      - injection Hrun as Hneg <-. split; [reflexivity|].
        destruct Hcase as [[Hl Ho]|Heng]; [|now apply (Heng _ _ _ _ Hneg)].
        apply andb_false_iff in E.
        destruct E as [E|E]; apply Z.leb_gt in E; lia. }
    destruct Hl as (-> & n' & m' & ->).
    split; [reflexivity|]. split; [now exists n', m'|].
    split; [|split].
    + intros p Hin. apply in_page, in_rest in Hin.
      now apply (Permutation_in _ Hp).
    + now apply StronglySorted_page.
    + intros Hn. apply StronglySorted_page.
      apply newest_first_strict; [exact Hs|].
      apply Permutation_NoDup with (map Post.created_at (posts st));
        [|exact Hn].
      apply Permutation_map. now symmetry.
  - intros Hl Ho. split; [now apply get_posts_run|]. split.
    + intros p q Hin Hq. apply in_page in Hq. now apply (Hcut m).
    + intros p q Hin Hq.
      assert (Hrest : newest_first (skipn m rows)).
      { unfold newest_first in *.
        rewrite <- (firstn_skipn m rows) in Hs.
        now apply StronglySorted_app_inv in Hs. }
      unfold newest_first in Hrest.
      rewrite <- (firstn_skipn n (skipn m rows)) in Hrest.
      apply StronglySorted_app_inv in Hrest.
      destruct Hrest as (_ & _ & H). now apply H.
  - reflexivity.
  - intros Hlen.
    assert (Hk : length (skipn 10 rows) = 5%nat).
    { rewrite length_skipn, (Permutation_length Hp), Hlen. reflexivity. }
    split; [|split; [exact Hk|apply (Hcut 10%nat)]].
    rewrite get_posts_run by (simpl; lia). simpl param.
    change (Z.to_nat 10) with 10%nat. fold rows.
    rewrite firstn_all2 by (rewrite Hk; lia). reflexivity.
  - intros Hn ties'. now apply order_by_no_tie.
Qed.

Lemma get_posts_page_witness :
  with_db (get_posts Samples.lenient Samples.key_order (Some 10) (Some 10))
    Samples.fifteen
  = (Return (map (fun i => Post.mk i "t" "c" (10 * i) 1) [5; 4; 3; 2; 1]),
     Samples.fifteen)
  /\ strictly_newest_first
       (map (fun i => Post.mk i "t" "c" (10 * i) 1) [5; 4; 3; 2; 1])
  /\ with_db (get_posts Samples.lenient Samples.scan_order None None)
       Samples.blog
     = (Return [Samples.post3; Samples.post1; Samples.post2], Samples.blog)
  /\ with_db (get_posts Samples.lenient Samples.key_order None None)
       Samples.blog
     = (Return [Samples.post3; Samples.post2; Samples.post1], Samples.blog)
  /\ newest_first [Samples.post3; Samples.post2; Samples.post1].
Proof.
  assert (H10 : 0 <= 10) by lia. assert (H0 : 0 <= 0) by lia.
  pose proof (get_posts_page Samples.lenient Samples.key_order
                Samples.fifteen (Some 10) (Some 10)) as H.
  cbv zeta in H. destruct H as (_ & _ & Hany & _ & _ & H15 & _).
  destruct (H15 eq_refl) as (Hrun & _ & _).
  split; [exact Hrun|split].
  - apply (Hany (or_introl (conj H10 H10)) _ _ Hrun). simpl.
    repeat (constructor; [simpl; intuition lia|]). constructor.
  - split.
    + apply (get_posts_page Samples.lenient Samples.scan_order Samples.blog
               None None); assumption.
    + pose proof (get_posts_page Samples.lenient Samples.key_order
                    Samples.blog (Some (-1)) None) as H'.
      cbv zeta in H'. destruct H' as (_ & _ & Hneg & _).
      split.
      * apply (get_posts_page Samples.lenient Samples.key_order Samples.blog
                 None None); assumption.
      * apply (Hneg (or_intror lenient_slices)
                 [Samples.post3; Samples.post2; Samples.post1]
                 Samples.blog). reflexivity.
Defined.

(** * Further properties of the handlers *)

(** ** What a request can do to the store *)

Lemma find_user_in (st : Store) (name : string) (u : User.t) :
  find_user st name = Some u -> In u (users st).
Proof. unfold find_user. intros H. now apply find_some in H. Qed.

Lemma find_post_in (st : Store) (pk : Z) (p : Post.t) :
  find_post st pk = Some p -> In p (posts st).
Proof. unfold find_post. intros H. now apply find_some in H. Qed.

Lemma handle_effect
  (pwd_context : CryptContext) (auth : Auth) (engine : Engine) (env : Env)
  (req : Request) (st : Store) :
  effect st (snd (handle pwd_context auth engine env req st)).
Proof.
  destruct req;
    unfold handle, route, signup, signin, create_post, get_posts,
      query_posts_page, get_post, update_post, delete_post;
    run; repeat branch;
    try rewrite two_assignments;
    try solve [ constructor
              | apply effect_new_user; assumption
              | eapply effect_new_post;
                [ eapply find_user_in; eassumption | reflexivity
                | apply (find_fresh_key Post.id) ] ].
Qed.

Lemma find_app_first {A} (f : A -> bool) (l l' : list A) (x : A) :
  find f l = Some x -> find f (l ++ l') = Some x.
Proof.
  induction l as [|y l IH]; simpl; [discriminate|].
  destruct (f y); [trivial|exact IH].
Qed.

Lemma find_user_absent (st : Store) (name : string) :
  find_user st name = None <-> ~ In name (map User.username (users st)).
Proof.
  unfold find_user. split.
  - intros H Hin. apply in_map_iff in Hin. destruct Hin as (u & <- & Hu).
    apply (find_none _ _ H) in Hu. now rewrite String.eqb_refl in Hu.
  - intros H. destruct (find _ (users st)) as [u|] eqn:E; [|reflexivity].
    apply find_some in E. destruct E as [Hu E].
    apply String.eqb_eq in E. subst name.
    exfalso. apply H. now apply in_map.
Qed.

Lemma find_post_absent (st : Store) (pk : Z) :
  find_post st pk = None <-> ~ In pk (map Post.id (posts st)).
Proof.
  unfold find_post. split.
  - intros H Hin. apply in_map_iff in Hin. destruct Hin as (p & <- & Hp).
    apply (find_none _ _ H) in Hp. now rewrite Z.eqb_refl in Hp.
  - intros H. destruct (find _ (posts st)) as [p|] eqn:E; [|reflexivity].
    apply find_some in E. destruct E as [Hp E].
    apply Z.eqb_eq in E. subst pk.
    exfalso. apply H. now apply in_map.
Qed.

Lemma effect_users (st st' : Store) :
  effect st st' ->
  exists l, users st' = users st ++ l /\ (length l <= 1)%nat.
Proof.
  intros [ |u _|p u _ _ _|pk t c|pk]; simpl;
    first [ now exists [u]
          | exists []; rewrite app_nil_r; split; [reflexivity|simpl; lia] ].
Qed.

Lemma effect_find_user (st st' : Store) (name : string) (u : User.t) :
  effect st st' -> find_user st name = Some u -> find_user st' name = Some u.
Proof.
  intros He Hu. apply effect_users in He. destruct He as (l & Hl & _).
  unfold find_user in *. rewrite Hl. now apply find_app_first.
Qed.

Lemma in_edited (pk : Z) (t c : string) (l : list Post.t) (p' : Post.t) :
  In p' (edited pk t c l) ->
  exists p, In p l /\ Post.id p = Post.id p'
            /\ Post.created_at p = Post.created_at p'
            /\ Post.author_id p = Post.author_id p'.
Proof.
  unfold edited. intros H. apply in_map_iff in H.
  destruct H as (p & <- & Hp). exists p. split; [exact Hp|].
  destruct (Post.id p =? pk); simpl; auto.
Qed.

Lemma in_without (pk : Z) (l : list Post.t) (p : Post.t) :
  In p (without pk l) <-> In p l /\ Post.id p <> pk.
Proof.
  unfold without. rewrite filter_In. split; intros [H1 H2]; split; trivial.
  - intros E. subst pk. now rewrite Z.eqb_refl in H2.
  - destruct (Z.eqb_spec (Post.id p) pk); [contradiction|reflexivity].
Qed.

Lemma effect_unique_usernames (st st' : Store) :
  effect st st' -> unique_usernames st -> unique_usernames st'.
Proof.
  unfold unique_usernames.
  intros [ |u Hu|p u _ _ _|pk t c|pk] H; simpl; trivial.
  rewrite map_app. simpl.
  apply find_user_absent in Hu.
  apply (Permutation_NoDup
           (l := User.username u :: map User.username (users st))).
  - apply Permutation_cons_append.
  - now constructor.
Qed.

Lemma effect_authors_exist (st st' : Store) :
  effect st st' -> authors_exist st -> authors_exist st'.
Proof.
  unfold authors_exist.
  intros [ |u Hu|p u Hin Ha _|pk t c|pk] H q Hq; simpl in *.
  - now apply H.
  - destruct (H q Hq) as (v & Hv & E). exists v. split; [|exact E].
    apply in_or_app. now left.
  - apply in_app_or in Hq. destruct Hq as [Hq|[<-|[]]]; [now apply H|].
    now exists u.
  - apply in_edited in Hq. destruct Hq as (q0 & Hq0 & _ & _ & E).
    rewrite <- E. now apply H.
  - apply in_without in Hq. now apply H.
Qed.

Lemma serve_invariant
  (pwd_context : CryptContext) (auth : Auth) (engine : Engine)
  (P : Store -> Prop) :
  (forall st st', effect st st' -> P st -> P st') ->
  forall reqs st, P st -> P (serve pwd_context auth engine reqs st).
Proof.
  intros Hstep reqs. induction reqs as [|[env req] reqs IH]; simpl; trivial.
  intros st H. apply IH. apply Hstep with st; [|exact H].
  apply handle_effect.
Qed.

(** X1: a user row that the username lookup finds is still the row it
    finds after any sequence of requests, with the same id and the same
    password hash, and a signup with that username then still answers
    400, whatever the password. *)
Theorem user_rows_persist
  (pwd_context : CryptContext) (auth : Auth) (engine : Engine)
  (reqs : list (Env * Request)) (st : Store) (name : string) (u : User.t) :
  find_user st name = Some u ->
  find_user (serve pwd_context auth engine reqs st) name = Some u
  /\ forall salt password,
       with_db (signup pwd_context salt (UserCreate.mk name password))
         (serve pwd_context auth engine reqs st)
       = (Raise (HTTPException 400 "Username already exists"),
          serve pwd_context auth engine reqs st).
Proof.
  intros Hu.
  assert (H : find_user (serve pwd_context auth engine reqs st) name
              = Some u).
  { apply (serve_invariant pwd_context auth engine
             (fun s => find_user s name = Some u)); [|exact Hu].
    intros s s' He. now apply effect_find_user. }
  split; [exact H|].
  intros salt password. unfold signup. run. now rewrite H.
Qed.

Lemma user_rows_persist_witness :
  find_user
    (serve Samples.plain Samples.auth Samples.engine
       [(Samples.env, POST_signup (UserCreate.mk "carol" "pw3"));
        (Samples.env,
         DELETE_post (TokenService.issue Samples.config 900 "alice") 1);
        (Samples.env, POST_signup (UserCreate.mk "alice" "again"))]
       Samples.blog) "alice"
  = Some Samples.alice.
Proof.
  apply (user_rows_persist Samples.plain Samples.auth Samples.engine
           _ Samples.blog "alice" Samples.alice).
  reflexivity.
Defined.

(** X2: if no two user rows share a username, no sequence of requests
    produces two rows that do: signup only adds a row for a username the
    lookup did not find, and no route changes a username. *)
Theorem usernames_stay_unique
  (pwd_context : CryptContext) (auth : Auth) (engine : Engine)
  (reqs : list (Env * Request)) (st : Store) :
  unique_usernames st ->
  unique_usernames (serve pwd_context auth engine reqs st).
Proof.
  apply serve_invariant. exact effect_unique_usernames.
Qed.

Lemma usernames_stay_unique_witness :
  unique_usernames
    (serve Samples.plain Samples.auth Samples.engine
       [(Samples.env, POST_signup (UserCreate.mk "carol" "pw3"));
        (Samples.env, POST_signup (UserCreate.mk "carol" "pw4"))]
       Samples.empty).
Proof.
  apply (usernames_stay_unique Samples.plain Samples.auth Samples.engine
           _ Samples.empty).
  constructor.
Defined.

(** X3: if every post's [author_id] is the id of a user row, this still
    holds after any sequence of requests: a post is created with the id
    of the row found for the actor, no route changes an [author_id], and
    no route removes or renumbers a user row. *)
Theorem authors_stay_present
  (pwd_context : CryptContext) (auth : Auth) (engine : Engine)
  (reqs : list (Env * Request)) (st : Store) :
  authors_exist st ->
  authors_exist (serve pwd_context auth engine reqs st).
Proof.
  apply serve_invariant. exact effect_authors_exist.
Qed.

Lemma authors_stay_present_witness :
  authors_exist
    (serve Samples.plain Samples.auth Samples.engine
       [(Samples.env, POST_signup (UserCreate.mk "carol" "pw3"));
        (Samples.env,
         POST_posts (TokenService.issue Samples.config 900 "carol")
           (PostCreate.mk "T" "C"))]
       Samples.empty).
Proof.
  apply (authors_stay_present Samples.plain Samples.auth Samples.engine
           _ Samples.empty).
  intros p [].
Defined.

(** X4: whatever the request, a post in the store afterwards either has
    the id, creation timestamp and author of a post that was there
    before, or carries an id that no post had before (it was just
    created): no route rewrites [created_at] or [author_id]. *)
Theorem posts_keep_origin
  (pwd_context : CryptContext) (auth : Auth) (engine : Engine) (env : Env)
  (req : Request) (st : Store) (p' : Post.t) :
  In p' (posts (snd (handle pwd_context auth engine env req st))) ->
  (exists p, In p (posts st) /\ Post.id p = Post.id p'
             /\ Post.created_at p = Post.created_at p'
             /\ Post.author_id p = Post.author_id p')
  \/ ~ In (Post.id p') (map Post.id (posts st)).
Proof.
  pose proof (handle_effect pwd_context auth engine env req st) as He.
  destruct He as [ |u Hu|p u Hin Ha Hfresh|pk t c|pk]; simpl; intros H.
  - left. now exists p'.
  - left. now exists p'.
  - apply in_app_or in H. destruct H as [H|[<-|[]]].
    + left. now exists p'.
    + right. now apply find_post_absent.
  - left. now apply in_edited with pk t c.
  - left. apply in_without in H. exists p'. tauto.
Qed.

Lemma posts_keep_origin_witness :
  (exists p, In p (posts Samples.blog) /\ Post.id p = 1
             /\ Post.created_at p = 100 /\ Post.author_id p = 1)
  \/ ~ In 1 (map Post.id (posts Samples.blog)).
Proof.
  apply (posts_keep_origin Samples.plain Samples.auth Samples.engine
           Samples.env
           (PUT_post (TokenService.issue Samples.config 900 "alice") 1
              (PostCreate.mk "T" "C"))
           Samples.blog (Post.mk 1 "T" "C" 100 1)).
  simpl. now left.
Defined.

(** X5: signin, [/me], the post listing and the single-post read never
    change the store, whether they succeed or fail and whatever the
    hasher, the token service and the engine answer. *)
Theorem reads_leave_store
  (pwd_context : CryptContext) (auth : Auth) (engine : Engine) (env : Env)
  (req : Request) (st : Store) :
  read_only req = true ->
  snd (handle pwd_context auth engine env req st) = st.
Proof.
  destruct req; simpl; try discriminate; intros _;
    unfold handle, route, signin, get_posts, query_posts_page, get_post;
    run; repeat branch; reflexivity.
Qed.

Lemma reads_leave_store_witness :
  snd (handle Samples.plain Samples.auth Samples.engine Samples.env
         (GET_posts (Some (-1)) None) Samples.blog)
  = Samples.blog.
Proof.
  apply (reads_leave_store Samples.plain Samples.auth Samples.engine
           Samples.env (GET_posts (Some (-1)) None) Samples.blog).
  reflexivity.
Defined.

(** X6: on every route behind the bearer guard, credentials that
    [verify_token] rejects give 401 [Invalid or expired token] and an
    untouched store, before the body looks at any post or user: the
    answer is the same whether or not the post exists and whoever owns
    it. *)
Theorem rejected_token_stops_request
  (pwd_context : CryptContext) (auth : Auth) (engine : Engine) (env : Env)
  (req : Request) (credentials : token_string) (st : Store) :
  bearer req = Some credentials ->
  verify_token auth (now env) credentials = None ->
  handle pwd_context auth engine env req st
  = (Raise (HTTPException 401 "Invalid or expired token"), st).
Proof.
  destruct req; simpl; try discriminate; intros [= ->] Hv;
    run; now rewrite Hv.
Qed.

Lemma rejected_token_stops_request_witness :
  handle Samples.plain Samples.auth Samples.engine Samples.env
    (DELETE_post (Unparsable "junk") 1) Samples.blog
  = (Raise (HTTPException 401 "Invalid or expired token"), Samples.blog).
Proof.
  apply (rejected_token_stops_request Samples.plain Samples.auth
           Samples.engine Samples.env (DELETE_post (Unparsable "junk") 1)
           (Unparsable "junk") Samples.blog); reflexivity.
Defined.

(** ** Signin, creating and reading posts *)

(** X7: signin returns a token exactly when the lookup finds a row for
    the username and the hasher answers [True] for the password against
    that row's hash; the token is then the one [create_access_token]
    issues for the requested username, its type is [bearer], and the
    store is untouched. *)
Theorem signin_succeeds_iff
  (pwd_context : CryptContext) (auth : Auth) (t : Z) (user : UserLogin.t)
  (st : Store) :
  (forall u,
     find_user st (UserLogin.username user) = Some u ->
     verify pwd_context (UserLogin.password user) (User.hashed_password u)
     = Return true ->
     with_db (signin pwd_context auth t user) st
     = (Return (create_access_token auth t (UserLogin.username user),
                "bearer"%string), st))
  /\
  (forall token kind,
     fst (with_db (signin pwd_context auth t user) st)
     = Return (token, kind) ->
     exists u,
       In u (users st)
       /\ User.username u = UserLogin.username user
       /\ verify pwd_context (UserLogin.password user)
            (User.hashed_password u) = Return true
       /\ token = create_access_token auth t (UserLogin.username user)
       /\ kind = "bearer"%string).
Proof.
  split.
  - intros u Hu Hv. rewrite (signin_hasher_answer _ _ _ _ _ _ Hu), Hv.
    now rewrite (find_user_username _ _ _ Hu).
  - intros token kind.
    destruct (find_user st (UserLogin.username user)) as [u|] eqn:Hu.
    + rewrite (signin_hasher_answer _ _ _ _ _ _ Hu). simpl.
      destruct (verify pwd_context (UserLogin.password user)
                  (User.hashed_password u)) as [[|]|e] eqn:Hv;
        try discriminate.
      intros [= <- <-]. exists u.
      pose proof (find_user_username _ _ _ Hu) as Hn.
      repeat split; trivial.
      * now apply find_user_in with (UserLogin.username user).
      * now rewrite Hn.
    + rewrite (signin_unknown_user _ _ _ _ _ Hu). discriminate.
Qed.

Lemma signin_succeeds_iff_witness :
  with_db (signin Samples.plain Samples.auth 900 (UserLogin.mk "bob" "pw2"))
    Samples.blog
  = (Return (TokenService.issue Samples.config 900 "bob", "bearer"%string),
     Samples.blog)
  /\ exists u,
       In u (users Samples.blog)
       /\ User.username u = "bob"%string
       /\ verify Samples.plain "pw2" (User.hashed_password u) = Return true
       /\ TokenService.issue Samples.config 900 "bob"
          = create_access_token Samples.auth 900 "bob"
       /\ "bearer"%string = "bearer"%string.
Proof.
  split.
  - apply (proj1 (signin_succeeds_iff Samples.plain Samples.auth 900
                    (UserLogin.mk "bob" "pw2") Samples.blog) Samples.bob);
      reflexivity.
  - apply (proj2 (signin_succeeds_iff Samples.plain Samples.auth 900
                    (UserLogin.mk "bob" "pw2") Samples.blog)
             (TokenService.issue Samples.config 900 "bob") "bearer"%string).
    reflexivity.
Defined.

(** X8: [POST /posts] with credentials the token service accepts, for a
    subject that has a user row, appends exactly one post and returns
    it: title and content are the request's, the author is that row's
    id, the creation time is the request's clock reading, the id was not
    in use, users and earlier posts are as before, and reading the post
    back by its id gives the same post. *)
Theorem create_post_stores
  (pwd_context : CryptContext) (auth : Auth) (engine : Engine) (env : Env)
  (credentials : token_string) (post : PostCreate.t) (st : Store)
  (payload : Claim) (u : User.t) :
  verify_token auth (now env) credentials = Some payload ->
  find_user st (sub payload) = Some u ->
  exists p,
    handle pwd_context auth engine env (POST_posts credentials post) st
    = (Return (OnePost p), mkStore (users st) (posts st ++ [p]))
    /\ Post.title p = PostCreate.title post
    /\ Post.content p = PostCreate.content post
    /\ Post.author_id p = User.id u
    /\ Post.created_at p = now env
    /\ ~ In (Post.id p) (map Post.id (posts st))
    /\ with_db (get_post (Post.id p)) (mkStore (users st) (posts st ++ [p]))
       = (Return p, mkStore (users st) (posts st ++ [p])).
Proof.
  intros Hv Hu.
  set (p := Post.mk (next_id (map Post.id (posts st)))
              (PostCreate.title post) (PostCreate.content post) (now env)
              (User.id u)).
  assert (Hfresh : find_post st (Post.id p) = None)
    by apply (find_fresh_key Post.id).
  assert (Hfind : find_post (mkStore (users st) (posts st ++ [p]))
                    (Post.id p) = Some p).
  { unfold find_post in *. simpl posts.
    apply find_app_last; [exact Hfresh|apply Z.eqb_refl]. }
  exists p. repeat split.
  - unfold handle, route, create_post. run. rewrite Hv. simpl.
    rewrite Hu. simpl. fold p. simpl in Hfind. now rewrite Hfind.
  - now apply find_post_absent.
  - unfold get_post. run. simpl in Hfind. now rewrite Hfind.
Qed.

Lemma create_post_stores_witness :
  exists p,
    handle Samples.plain Samples.auth Samples.engine Samples.env
      (POST_posts (TokenService.issue Samples.config 900 "bob")
         (PostCreate.mk "T" "C")) Samples.blog
    = (Return (OnePost p),
       mkStore (users Samples.blog) (posts Samples.blog ++ [p]))
    /\ Post.title p = "T"%string
    /\ Post.content p = "C"%string
    /\ Post.author_id p = 2
    /\ Post.created_at p = 1000
    /\ ~ In (Post.id p) [1; 2; 3]
    /\ with_db (get_post (Post.id p))
         (mkStore (users Samples.blog) (posts Samples.blog ++ [p]))
       = (Return p, mkStore (users Samples.blog) (posts Samples.blog ++ [p])).
Proof.
  apply (create_post_stores Samples.plain Samples.auth Samples.engine
           Samples.env (TokenService.issue Samples.config 900 "bob")
           (PostCreate.mk "T" "C") Samples.blog (mkClaim "bob" 900 2700)
           Samples.bob); reflexivity.
Defined.

Lemma find_unique_key {A} (key : A -> Z) (l : list A) (x : A) :
  NoDup (map key l) -> In x l ->
  find (fun a => key a =? key x) l = Some x.
Proof.
  induction l as [|y l IH]; simpl; [contradiction|].
  intros Hn Hin. apply NoDup_cons_iff in Hn. destruct Hn as [Hy Hn].
  destruct Hin as [->|Hin]; [now rewrite Z.eqb_refl|].
  destruct (Z.eqb_spec (key y) (key x)) as [E|_]; [|now apply IH].
  exfalso. apply Hy. rewrite E. now apply in_map.
Qed.

(** X9: [GET /posts/{post_id}] answers 404 [Post not found] when no post
    carries the id and otherwise returns a post of the store with that
    id; when ids are unique, every post of the store is what its own id
    reads back. *)
Theorem get_post_answers (st : Store) (post_id : Z) :
  (~ In post_id (map Post.id (posts st)) ->
     with_db (get_post post_id) st
     = (Raise (HTTPException 404 "Post not found"), st))
  /\ (In post_id (map Post.id (posts st)) ->
        exists p,
          with_db (get_post post_id) st = (Return p, st)
          /\ In p (posts st) /\ Post.id p = post_id)
  /\ (NoDup (map Post.id (posts st)) ->
        forall p, In p (posts st) ->
        with_db (get_post (Post.id p)) st = (Return p, st)).
Proof.
  split; [|split].
  - intros H. apply find_post_absent in H. unfold get_post. run.
    now rewrite H.
  - intros H. destruct (find_post st post_id) as [p|] eqn:E.
    + exists p. split; [|split].
      * unfold get_post. run. now rewrite E.
      * now apply find_post_in with post_id.
      * now apply find_post_id with st.
    + apply find_post_absent in E. contradiction.
  - intros Hn p Hp. unfold get_post. run. unfold find_post.
    now rewrite (find_unique_key Post.id _ _ Hn Hp).
Qed.

Lemma get_post_answers_witness :
  with_db (get_post 7) Samples.blog
  = (Raise (HTTPException 404 "Post not found"), Samples.blog)
  /\ with_db (get_post (Post.id Samples.post2)) Samples.blog
     = (Return Samples.post2, Samples.blog).
Proof.
  split.
  - apply (proj1 (get_post_answers Samples.blog 7)).
    simpl. intuition lia.
  - apply (proj2 (proj2 (get_post_answers Samples.blog 2))).
    + simpl. repeat (constructor; [simpl; intuition lia|]). constructor.
    + simpl. auto.
Defined.

(** ** How updates, deletes and reads compose *)

Lemma find_edited_other (pk k : Z) (t c : string) (l : list Post.t) :
  k <> pk ->
  find (fun q => Post.id q =? k) (edited pk t c l)
  = find (fun q => Post.id q =? k) l.
Proof.
  intros Hk. induction l as [|q l IH]; simpl; [reflexivity|].
  destruct (Z.eqb_spec (Post.id q) pk) as [E|E]; simpl.
  - destruct (Z.eqb_spec (Post.id q) k); [lia|exact IH].
  - now rewrite IH.
Qed.

Lemma find_without_other (pk k : Z) (l : list Post.t) :
  k <> pk ->
  find (fun q => Post.id q =? k) (without pk l)
  = find (fun q => Post.id q =? k) l.
Proof.
  intros Hk. induction l as [|q l IH]; simpl; [reflexivity|].
  destruct (Z.eqb_spec (Post.id q) pk) as [E|E]; simpl.
  - destruct (Z.eqb_spec (Post.id q) k); [lia|exact IH].
  - now rewrite IH.
Qed.

Lemma edited_twice (pk : Z) (t1 c1 t2 c2 : string) (l : list Post.t) :
  edited pk t2 c2 (edited pk t1 c1 l) = edited pk t2 c2 l.
Proof.
  unfold edited. rewrite map_map. apply map_ext. intros q.
  destruct (Post.id q =? pk) eqn:E; simpl; now rewrite E.
Qed.

Lemma get_post_run (st : Store) (k : Z) :
  with_db (get_post k) st
  = (match find_post st k with
     | Some p => Return p
     | None => Raise (HTTPException 404 "Post not found")
     end, st).
Proof. unfold get_post. run. now destruct (find_post st k). Qed.

(** X10: after the author's update, reading the post by its id gives
    the post with the new title and content, and reading any other id
    gives what it gave before the update. *)
Theorem update_then_get
  (st : Store) (post_id : Z) (post_data : PostCreate.t) (actor : string)
  (post : Post.t) (u : User.t) :
  find_post st post_id = Some post ->
  find_user st actor = Some u ->
  User.id u = Post.author_id post ->
  let st' := snd (with_db (update_post post_id post_data actor) st) in
  with_db (get_post post_id) st'
  = (Return (Post.edit (PostCreate.title post_data)
               (PostCreate.content post_data) post), st')
  /\ forall k, k <> post_id ->
       fst (with_db (get_post k) st') = fst (with_db (get_post k) st).
Proof.
  intros Hp Hu He st'. subst st'.
  rewrite (update_post_own _ _ _ _ _ _ Hp Hu He). simpl. split.
  - rewrite get_post_run. unfold find_post in *. simpl.
    now rewrite (find_edited _ _ _ _ _ Hp).
  - intros k Hk. rewrite !get_post_run. unfold find_post. simpl.
    now rewrite find_edited_other.
Qed.

Lemma update_then_get_witness :
  let st' := snd (with_db (update_post 1 (PostCreate.mk "T" "C") "alice")
                    Samples.blog) in
  with_db (get_post 1) st' = (Return (Post.mk 1 "T" "C" 100 1), st')
  /\ forall k, k <> 1 ->
       fst (with_db (get_post k) st')
       = fst (with_db (get_post k) Samples.blog).
Proof.
  apply (update_then_get Samples.blog 1 (PostCreate.mk "T" "C") "alice"
           Samples.post1 Samples.alice); reflexivity.
Defined.

(** X11: after the author's delete, the id is gone: reading it,
    updating it and deleting it again all answer 404 [Post not found],
    for any actor; reading any other id gives what it gave before. *)
Theorem delete_then_gone
  (st : Store) (post_id : Z) (actor : string) (post : Post.t) (u : User.t) :
  find_post st post_id = Some post ->
  find_user st actor = Some u ->
  User.id u = Post.author_id post ->
  let st' := snd (with_db (delete_post post_id actor) st) in
  with_db (get_post post_id) st'
  = (Raise (HTTPException 404 "Post not found"), st')
  /\ (forall data who,
        with_db (update_post post_id data who) st'
        = (Raise (HTTPException 404 "Post not found"), st'))
  /\ (forall who,
        with_db (delete_post post_id who) st'
        = (Raise (HTTPException 404 "Post not found"), st'))
  /\ forall k, k <> post_id ->
       fst (with_db (get_post k) st') = fst (with_db (get_post k) st).
Proof.
  intros Hp Hu He st'. subst st'.
  rewrite (delete_post_own _ _ _ _ _ Hp Hu He). simpl.
  assert (Hgone : find_post (mkStore (users st) (without post_id (posts st)))
                    post_id = None).
  { unfold find_post. simpl. apply find_without. }
  split; [|split; [|split]].
  - rewrite get_post_run. now rewrite Hgone.
  - intros data who. now apply update_post_missing.
  - intros who. now apply delete_post_missing.
  - intros k Hk. rewrite !get_post_run. unfold find_post. simpl.
    now rewrite find_without_other.
Qed.

Lemma delete_then_gone_witness :
  let st' := snd (with_db (delete_post 2 "bob") Samples.blog) in
  with_db (get_post 2) st'
  = (Raise (HTTPException 404 "Post not found"), st')
  /\ with_db (delete_post 2 "bob") st'
     = (Raise (HTTPException 404 "Post not found"), st').
Proof.
  pose proof (delete_then_gone Samples.blog 2 "bob" Samples.post2
                Samples.bob eq_refl eq_refl eq_refl) as H.
  cbv zeta in H. destruct H as (H1 & _ & H3 & _).
  split; [exact H1|exact (H3 "bob"%string)].
Defined.

(** X12: the last update wins: when the author updates a post and then
    updates it again, the second request answers, and leaves the store,
    exactly as if it had been the only one; repeating an update changes
    nothing more. *)
Theorem last_update_wins
  (st : Store) (post_id : Z) (first second : PostCreate.t) (actor : string)
  (post : Post.t) (u : User.t) :
  find_post st post_id = Some post ->
  find_user st actor = Some u ->
  User.id u = Post.author_id post ->
  with_db (update_post post_id second actor)
    (snd (with_db (update_post post_id first actor) st))
  = with_db (update_post post_id second actor) st.
Proof.
  intros Hp Hu He.
  rewrite (update_post_own _ _ first _ _ _ Hp Hu He). simpl.
  rewrite (update_post_own _ _ second _ _ _ Hp Hu He).
  set (st1 := mkStore (users st)
                (edited post_id (PostCreate.title first)
                   (PostCreate.content first) (posts st))).
  assert (Hp1 : find_post st1 post_id
                = Some (Post.edit (PostCreate.title first)
                          (PostCreate.content first) post)).
  { unfold find_post in *. simpl. now apply find_edited. }
  rewrite (update_post_own st1 _ second _ _ _ Hp1 Hu He).
  simpl. now rewrite edited_twice.
Qed.

Lemma last_update_wins_witness :
  with_db (update_post 1 (PostCreate.mk "T2" "C2") "alice")
    (snd (with_db (update_post 1 (PostCreate.mk "T1" "C1") "alice")
            Samples.blog))
  = with_db (update_post 1 (PostCreate.mk "T2" "C2") "alice") Samples.blog.
Proof.
  apply (last_update_wins Samples.blog 1 (PostCreate.mk "T1" "C1")
           (PostCreate.mk "T2" "C2") "alice" Samples.post1 Samples.alice);
    reflexivity.
Defined.

(** ** Pages of the listing *)

Lemma firstn_plus {A} (a b : nat) (l : list A) :
  firstn a l ++ firstn b (skipn a l) = firstn (a + b) l.
Proof.
  revert l. induction a as [|a IH]; intros l; simpl; [reflexivity|].
  destruct l as [|x l]; simpl.
  - now rewrite firstn_nil.
  - now rewrite IH.
Qed.

(** X13: when no two posts share a creation time, consecutive pages
    tile the listing: for non-negative offset and limits, the page of
    [a] posts at an offset followed by the page of [b] posts at that
    offset plus [a] is the page of [a + b] posts at the offset, whatever
    order of ties each of the three queries is given; no post is skipped
    or repeated between pages.  (With equal creation times each query
    may order them its own way, and nothing is stated.) *)
Theorem pages_tile (engine : Engine)
  (ties1 ties2 ties3 : Post.t -> Post.t -> bool) (st : Store)
  (offset a b : Z) :
  NoDup (map Post.created_at (posts st)) ->
  0 <= offset -> 0 <= a -> 0 <= b ->
  exists first second,
    with_db (get_posts engine ties1 (Some a) (Some offset)) st
    = (Return first, st)
    /\ with_db (get_posts engine ties2 (Some b) (Some (offset + a))) st
       = (Return second, st)
    /\ with_db (get_posts engine ties3 (Some (a + b)) (Some offset)) st
       = (Return (first ++ second), st).
Proof.
  intros Hn Ho Ha Hb.
  eexists. eexists. split; [|split].
  - apply get_posts_run; simpl; lia.
  - apply get_posts_run; simpl; lia.
  - rewrite get_posts_run by (simpl; lia). simpl param.
    rewrite (order_by_no_tie ties2 ties1 _ Hn),
      (order_by_no_tie ties3 ties1 _ Hn).
    rewrite (Z2Nat.inj_add offset a Ho Ha), (Z2Nat.inj_add a b Ha Hb).
    rewrite (Nat.add_comm (Z.to_nat offset)), <- skipn_skipn.
    now rewrite firstn_plus.
Qed.

Lemma fifteen_distinct :
  NoDup (map Post.created_at (posts Samples.fifteen)).
Proof.
  simpl. repeat (constructor; [simpl; intuition lia|]). constructor.
Qed.

Lemma pages_tile_witness :
  exists first second,
    with_db (get_posts Samples.engine Samples.scan_order (Some 2) (Some 1))
      Samples.fifteen
    = (Return first, Samples.fifteen)
    /\ with_db (get_posts Samples.engine Samples.key_order (Some 3)
                (Some (1 + 2))) Samples.fifteen
       = (Return second, Samples.fifteen)
    /\ with_db (get_posts Samples.engine Samples.scan_order (Some (2 + 3))
                (Some 1)) Samples.fifteen
       = (Return (first ++ second), Samples.fifteen).
Proof.
  apply (pages_tile Samples.engine Samples.scan_order Samples.key_order
           Samples.scan_order Samples.fifteen 1 2 3);
    [exact fifteen_distinct|lia|lia|lia].
Defined.

(** X14: for a non-negative limit and offset the listing holds only
    posts of the store, as many as the limit allows of those left after
    the offset: none when the limit is 0 or the offset reaches the
    number of posts, and every post of the store, whoever wrote it, when
    the offset is 0 and the limit reaches that number; this in whatever
    order the engine gives to equal creation times. *)
Theorem page_bounds (engine : Engine) (ties : Post.t -> Post.t -> bool)
  (st : Store) (limit offset : option Z) :
  0 <= param 10 limit -> 0 <= param 0 offset ->
  exists page,
    with_db (get_posts engine ties limit offset) st = (Return page, st)
    /\ length page
       = Nat.min (Z.to_nat (param 10 limit))
           (length (posts st) - Z.to_nat (param 0 offset))
    /\ (forall p, In p page -> In p (posts st))
    /\ (param 0 offset = 0 ->
        Z.of_nat (length (posts st)) <= param 10 limit ->
        Permutation page (posts st)).
Proof.
  intros Hl Ho. eexists. split; [now apply get_posts_run|].
  pose proof (order_by_perm ties (posts st)) as Hp.
  split; [|split].
  - rewrite length_firstn, length_skipn, (Permutation_length Hp).
    reflexivity.
  - intros p Hin. apply in_page, in_rest in Hin.
    now apply (Permutation_in _ Hp).
  - intros -> Hall. simpl. rewrite firstn_all2; [exact Hp|].
    rewrite (Permutation_length Hp). lia.
Qed.

Lemma page_bounds_witness :
  exists page,
    with_db (get_posts Samples.engine Samples.key_order (Some 5) None)
      Samples.blog
    = (Return page, Samples.blog)
    /\ length page = 3%nat
    /\ (forall p, In p page -> In p (posts Samples.blog))
    /\ (0 = 0 -> 3 <= 5 -> Permutation page (posts Samples.blog)).
Proof.
  apply (page_bounds Samples.engine Samples.key_order Samples.blog
           (Some 5) None);
    simpl; lia.
Defined.

(** ** The demo login *)

(** X15: the demo [login] accepts exactly the pair [sir] / [1234]; any
    other username is answered 401 [User not found] and the username
    [sir] with another password 401 [Incorrect password], so that,
    unlike [signin], its two failures tell a caller whether the username
    exists. *)
Theorem login_answers (data : Demo.LoginRequest) :
  (Demo.login data = Return "Login successful"%string
   <-> Demo.username data = "sir"%string
       /\ Demo.password data = "1234"%string)
  /\ (Demo.username data <> "sir"%string ->
      Demo.login data = Raise (HTTPException 401 "User not found"))
  /\ (Demo.username data = "sir"%string ->
      Demo.password data <> "1234"%string ->
      Demo.login data = Raise (HTTPException 401 "Incorrect password"))
  /\ Raise (A := string) (HTTPException 401 "User not found")
     <> Raise (HTTPException 401 "Incorrect password").
Proof.
  unfold Demo.login, Demo.fake_user_db, Demo.get.
  destruct ("sir" =? Demo.username data)%string eqn:Eu;
    [apply String.eqb_eq in Eu|apply String.eqb_neq in Eu];
    (destruct ("1234" =? Demo.password data)%string eqn:Ep;
     [apply String.eqb_eq in Ep|apply String.eqb_neq in Ep]);
    simpl; repeat split; try congruence;
    try (intros [? ?]; congruence); try discriminate.
Qed.

Lemma login_answers_witness :
  Demo.login (Demo.mkLoginRequest "sir" "1234")
  = Return "Login successful"%string
  /\ Demo.login (Demo.mkLoginRequest "bob" "1234")
     = Raise (HTTPException 401 "User not found")
  /\ Demo.login (Demo.mkLoginRequest "sir" "0000")
     = Raise (HTTPException 401 "Incorrect password").
Proof.
  split; [|split].
  - apply (proj2 (proj1 (login_answers (Demo.mkLoginRequest "sir" "1234")))).
    split; reflexivity.
  - apply (proj1 (proj2 (login_answers (Demo.mkLoginRequest "bob" "1234")))).
    simpl. discriminate.
  - apply (proj1 (proj2 (proj2
             (login_answers (Demo.mkLoginRequest "sir" "0000"))))).
    + reflexivity.
    + simpl. discriminate.
Defined.

(** ** A post and its creator *)

Lemma create_post_run (st : Store) (t : Z) (post : PostCreate.t)
  (actor : string) (u : User.t) :
  find_user st actor = Some u ->
  let p := Post.mk (next_id (map Post.id (posts st)))
             (PostCreate.title post) (PostCreate.content post) t
             (User.id u) in
  with_db (create_post t post actor) st
  = (Return p, mkStore (users st) (posts st ++ [p]))
  /\ find_post (mkStore (users st) (posts st ++ [p])) (Post.id p) = Some p.
Proof.
  intros Hu p.
  assert (Hfind : find_post (mkStore (users st) (posts st ++ [p]))
                    (Post.id p) = Some p).
  { unfold find_post. simpl posts.
    apply find_app_last; [|apply Z.eqb_refl].
    apply (find_fresh_key Post.id). }
  split; [|exact Hfind].
  unfold create_post. run. rewrite Hu. simpl. fold p.
  simpl in Hfind. now rewrite Hfind.
Qed.

Lemma without_fresh (l : list Post.t) (p : Post.t) :
  ~ In (Post.id p) (map Post.id l) -> without (Post.id p) (l ++ [p]) = l.
Proof.
  intros H. unfold without. rewrite filter_app. simpl.
  rewrite Z.eqb_refl. simpl. rewrite app_nil_r.
  induction l as [|q l IH]; simpl in *; [reflexivity|].
  destruct (Z.eqb_spec (Post.id q) (Post.id p)) as [E|_]; simpl.
  - exfalso. apply H. now left.
  - rewrite IH; [reflexivity|tauto].
Qed.

(** X16: the actor who creates a post owns it: on the store that
    [create_post] leaves, the same actor's update succeeds, an actor
    whose user row has another id gets 403 for update and delete, and
    the creator's delete succeeds and gives back exactly the store from
    before the post was created. *)
Theorem creator_owns_post
  (st : Store) (t : Z) (post : PostCreate.t) (actor : string) (u : User.t) :
  find_user st actor = Some u ->
  exists p st',
    with_db (create_post t post actor) st = (Return p, st')
    /\ (forall data,
          fst (with_db (update_post (Post.id p) data actor) st')
          = Return (Post.edit (PostCreate.title data)
                      (PostCreate.content data) p))
    /\ (forall other v data,
          find_user st other = Some v -> User.id v <> User.id u ->
          with_db (update_post (Post.id p) data other) st'
          = (Raise (HTTPException 403 "Not allowed to edit this post"), st')
          /\ with_db (delete_post (Post.id p) other) st'
             = (Raise (HTTPException 403 "Not allowed to delete this post"),
                st'))
    /\ with_db (delete_post (Post.id p) actor) st'
       = (Return "Post deleted successfully"%string, st).
Proof.
  intros Hu.
  destruct (create_post_run st t post actor u Hu) as [Hrun Hfind].
  set (p := Post.mk (next_id (map Post.id (posts st)))
              (PostCreate.title post) (PostCreate.content post) t
              (User.id u)) in *.
  set (st' := mkStore (users st) (posts st ++ [p])) in *.
  assert (Hkeep : forall name v,
             find_user st name = Some v -> find_user st' name = Some v).
  { intros name v H. exact H. }
  exists p, st'. split; [exact Hrun|]. split; [|split].
  - intros data.
    now rewrite (update_post_own st' _ data actor p u Hfind (Hkeep _ _ Hu)
                   eq_refl).
  - intros other v data Hv Hne. split.
    + now apply update_post_foreign with p v; auto.
    + now apply delete_post_foreign with p v; auto.
  - rewrite (delete_post_own st' _ actor p u Hfind (Hkeep _ _ Hu) eq_refl).
    subst st'. cbn [users posts]. rewrite (without_fresh (posts st) p).
    + now destruct st.
    + apply find_post_absent. apply (find_fresh_key Post.id).
Qed.

Lemma creator_owns_post_witness :
  exists p st',
    with_db (create_post 500 (PostCreate.mk "T" "C") "bob") Samples.blog
    = (Return p, st')
    /\ with_db (delete_post (Post.id p) "alice") st'
       = (Raise (HTTPException 403 "Not allowed to delete this post"), st')
    /\ with_db (delete_post (Post.id p) "bob") st'
       = (Return "Post deleted successfully"%string, Samples.blog).
Proof.
  destruct (creator_owns_post Samples.blog 500 (PostCreate.mk "T" "C")
              "bob" Samples.bob eq_refl) as (p & st' & H1 & _ & H3 & H4).
  exists p, st'. split; [exact H1|split; [|exact H4]].
  apply (H3 "alice"%string Samples.alice (PostCreate.mk "T" "C") eq_refl).
  simpl. lia.
Defined.

Lemma order_by_newest (ties : Post.t -> Post.t -> bool) (l : list Post.t)
  (p : Post.t) :
  (forall q, In q l -> Post.created_at q < Post.created_at p) ->
  order_by_created_at_desc ties (l ++ [p])
  = p :: order_by_created_at_desc ties l.
Proof.
  unfold order_by_created_at_desc.
  induction l as [|q l IH]; simpl; intros H; [reflexivity|].
  rewrite IH by auto. simpl.
  destruct (goes_before ties q p) eqn:E; [|reflexivity].
  apply (goes_before_newer ties q p) in E.
  specialize (H q (or_introl eq_refl)). lia.
Qed.

(** X17: a post created at a clock reading later than the creation time
    of every stored post heads the listing: after [create_post], a
    listing from offset 0 with a positive limit starts with the new
    post, followed by earlier posts of the store, whatever order the
    query gives to equal creation times; when no two earlier posts share
    a creation time, what follows the new post is exactly what a listing
    with one less returned before, in any order of ties. *)
Theorem new_post_heads_listing
  (engine : Engine) (ties : Post.t -> Post.t -> bool) (st : Store) (t : Z)
  (post : PostCreate.t) (actor : string) (u : User.t) (limit : Z) :
  find_user st actor = Some u ->
  (forall q, In q (posts st) -> Post.created_at q < t) ->
  0 < limit ->
  exists p st' rest,
    with_db (create_post t post actor) st = (Return p, st')
    /\ with_db (get_posts engine ties (Some limit) None) st'
       = (Return (p :: rest), st')
    /\ (forall q, In q rest ->
          In q (posts st) /\ Post.created_at q < Post.created_at p)
    /\ (NoDup (map Post.created_at (posts st)) ->
        forall ties',
          with_db (get_posts engine ties' (Some (limit - 1)) None) st
          = (Return rest, st)).
Proof.
  intros Hu Hnew Hl.
  destruct (create_post_run st t post actor u Hu) as [Hrun _].
  set (p := Post.mk (next_id (map Post.id (posts st)))
              (PostCreate.title post) (PostCreate.content post) t
              (User.id u)) in *.
  exists p. eexists. eexists. split; [exact Hrun|].
  split; [|split].
  - rewrite get_posts_run by (simpl; lia). simpl.
    rewrite order_by_newest by exact Hnew.
    replace (Z.to_nat limit) with (S (Z.to_nat (limit - 1))) by lia.
    reflexivity.
  - intros q Hq. apply in_page in Hq.
    apply (Permutation_in _ (order_by_perm ties (posts st))) in Hq.
    split; [exact Hq|now apply Hnew].
  - intros Hn ties'. rewrite get_posts_run by (simpl; lia). simpl.
    now rewrite (order_by_no_tie ties' ties _ Hn).
Qed.

Lemma new_post_heads_listing_witness :
  exists p st' rest,
    with_db (create_post 500 (PostCreate.mk "T" "C") "alice")
      Samples.fifteen
    = (Return p, st')
    /\ with_db (get_posts Samples.engine Samples.key_order (Some 2) None) st'
       = (Return (p :: rest), st')
    /\ (forall q, In q rest ->
          In q (posts Samples.fifteen)
          /\ Post.created_at q < Post.created_at p)
    /\ (NoDup (map Post.created_at (posts Samples.fifteen)) ->
        forall ties',
          with_db (get_posts Samples.engine ties' (Some (2 - 1)) None)
            Samples.fifteen
          = (Return rest, Samples.fifteen)).
Proof.
  apply (new_post_heads_listing Samples.engine Samples.key_order
           Samples.fifteen 500 (PostCreate.mk "T" "C") "alice"
           Samples.alice 2).
  - reflexivity.
  - simpl. intros q Hq.
    repeat (destruct Hq as [<-|Hq]; [simpl; lia|]). destruct Hq.
  - lia.
Defined.

(** X18: an actor whose username has a user row never reaches the
    unguarded [db_user.id] of [update_post] and [delete_post]: after any
    sequence of requests both end in a result or in an HTTP error (404
    or 403), never in an [AttributeError]. *)
Theorem registered_actor_never_crashes
  (pwd_context : CryptContext) (auth : Auth) (engine : Engine)
  (reqs : list (Env * Request)) (st : Store) (actor : string) (u : User.t)
  (post_id : Z) (data : PostCreate.t) :
  find_user st actor = Some u ->
  let st' := serve pwd_context auth engine reqs st in
  ((exists p, fst (with_db (update_post post_id data actor) st') = Return p)
   \/ http_error (fst (with_db (update_post post_id data actor) st')))
  /\ ((exists m, fst (with_db (delete_post post_id actor) st') = Return m)
      \/ http_error (fst (with_db (delete_post post_id actor) st'))).
Proof.
  intros Hu st'.
  assert (Hu' : find_user st' actor = Some u).
  { apply (serve_invariant pwd_context auth engine
             (fun s => find_user s actor = Some u)); [|exact Hu].
    intros s s' He. now apply effect_find_user. }
  destruct (find_post st' post_id) as [post|] eqn:Hp.
  - destruct (Z.eq_dec (User.id u) (Post.author_id post)) as [E|E].
    + rewrite (update_post_own _ _ data _ _ _ Hp Hu' E),
        (delete_post_own _ _ _ _ _ Hp Hu' E).
      split; left; eexists; reflexivity.
    + rewrite (update_post_foreign _ _ data _ _ _ Hp Hu' E),
        (delete_post_foreign _ _ _ _ _ Hp Hu' E).
      split; right; eexists; eexists; reflexivity.
  - rewrite (update_post_missing _ _ data actor Hp),
      (delete_post_missing _ _ actor Hp).
    split; right; eexists; eexists; reflexivity.
Qed.

Lemma registered_actor_never_crashes_witness :
  let st' := serve Samples.plain Samples.auth Samples.engine
               [(Samples.env,
                 DELETE_post (TokenService.issue Samples.config 900 "bob") 2)]
               Samples.blog in
  ((exists p,
      fst (with_db (update_post 2 (PostCreate.mk "T" "C") "bob") st')
      = Return p)
   \/ http_error
        (fst (with_db (update_post 2 (PostCreate.mk "T" "C") "bob") st')))
  /\ ((exists m, fst (with_db (delete_post 2 "bob") st') = Return m)
      \/ http_error (fst (with_db (delete_post 2 "bob") st'))).
Proof.
  apply (registered_actor_never_crashes Samples.plain Samples.auth
           Samples.engine _ Samples.blog "bob" Samples.bob 2
           (PostCreate.mk "T" "C")).
  reflexivity.
Defined.
